(** * Receiptly API: a shallow embedding of [src/index.ts]

    The service has two routes of interest: [POST /analyze-receipt], which
    post-processes the text returned by a hosted model ([extractJson]), and
    [GET /receipts/:id/export/csv], which authenticates the caller, looks a
    receipt up in the store and renders it as CSV ([csvEscape],
    [formatNumber], [formatDate]).

    JavaScript strings are sequences of UTF-16 code units; they are modelled
    as lists of code units ([N]).  JavaScript numbers are IEEE 754 binary64
    values; they are modelled by [spec_float], with the conversions the code
    relies on ([Number], [String], [toFixed]) written out on exact integer
    arithmetic. *)

From Stdlib Require Import ZArith NArith List Bool Ascii String Lia.
From Stdlib Require Import Floats.SpecFloat.
From stdpp Require Import base option list gmap.

Import ListNotations.
Open Scope Z_scope.

(** ** Strings *)

Module Js.

(** A string is a list of UTF-16 code units. *)
Abbreviation str := (list N).

(** [lit "abc"] is the string with the code units of an ASCII literal. *)
Definition lit (s : String.string) : str :=
  List.map N_of_ascii (list_ascii_of_string s).

Definition DQUOTE : N := 34%N.
Definition COMMA : N := 44%N.
Definition LF : N := 10%N.
Definition LBRACE : N := 123%N.
Definition RBRACE : N := 125%N.
Definition HYPHEN : N := 45%N.

Definition eqb (a b : str) : bool := bool_decide (a = b).

(** [!s] on a string: only the empty string is falsy. *)
Definition truthy (s : str) : bool :=
  match s with [] => false | _ => true end.

(** [s.startsWith(p)] *)
Fixpoint startsWith (p s : str) : bool :=
  match p, s with
  | [], _ => true
  | a :: p', b :: s' => (a =? b)%N && startsWith p' s'
  | _ :: _, [] => false
  end.

(** WhiteSpace and LineTerminator code units: the set matched by [\s] and
    removed by [String.prototype.trim]. *)
Definition isWhite (c : N) : bool :=
  ((9 <=? c) && (c <=? 13) || (c =? 32) || (c =? 160) || (c =? 5760)
   || (8192 <=? c) && (c <=? 8202) || (c =? 8232) || (c =? 8233)
   || (c =? 8239) || (c =? 8287) || (c =? 12288) || (c =? 65279))%N.

Fixpoint trimStart (s : str) : str :=
  match s with
  | c :: s' => if isWhite c then trimStart s' else s
  | [] => []
  end.

Fixpoint trimEnd (s : str) : str :=
  match s with
  | c :: s' =>
      match trimEnd s' with
      | [] => if isWhite c then [] else [c]
      | t => c :: t
      end
  | [] => []
  end.

(** [s.trim()] *)
Definition trim (s : str) : str := trimEnd (trimStart s).

(** [s.indexOf(c)] for a one-character [c]; -1 when absent. *)
Fixpoint indexOf (c : N) (s : str) : Z :=
  match s with
  | [] => -1
  | x :: s' =>
      if (x =? c)%N then 0
      else let i := indexOf c s' in if i =? -1 then -1 else i + 1
  end.

(** [s.lastIndexOf(c)] for a one-character [c]; -1 when absent. *)
Fixpoint lastIndexOf (c : N) (s : str) : Z :=
  match s with
  | [] => -1
  | x :: s' =>
      let i := lastIndexOf c s' in
      if i =? -1 then (if (x =? c)%N then 0 else -1) else i + 1
  end.

(** [s.slice(from, to)]: negative positions count from the end, both are
    clamped to the string. *)
Definition slice (from to : Z) (s : str) : str :=
  let len := Z.of_nat (length s) in
  let clamp i := if i <? 0 then Z.max (len + i) 0 else Z.min i len in
  let a := clamp from in
  let b := clamp to in
  firstn (Z.to_nat (b - a)) (skipn (Z.to_nat a) s).

(** [lines.join(sep)] *)
Fixpoint join (sep : str) (l : list str) : str :=
  match l with
  | [] => []
  | [x] => x
  | x :: l' => x ++ sep ++ join sep l'
  end.

End Js.

Abbreviation jsstring := Js.str.

(** ** Numbers

    A Number is an IEEE 754 binary64 value: [S754_finite s m e] denotes
    [(-1)^s * m * 2^e].  The conversions below follow ECMA-262
    (StringToNumber, Number::toString, Number.prototype.toFixed) on exact
    integer arithmetic. *)

Module Num.

Definition number := spec_float.

Definition NaN : number := S754_nan.
Definition Infinity : number := S754_infinity false.
Definition zero : number := S754_zero false.

(** [isNaN(x)] *)
Definition isNaN (x : number) : bool :=
  match x with S754_nan => true | _ => false end.

(** The ratio [(a/b) / 2^e] as a fraction of integers. *)
Definition scale2 (a b e : Z) : Z * Z :=
  if 0 <=? e then (a, b * 2 ^ e) else (a * 2 ^ (- e), b).

(** The ratio [(a/b) / 10^p] as a fraction of integers. *)
Definition scale10 (a b p : Z) : Z * Z :=
  if 0 <=? p then (a, b * 10 ^ p) else (a * 10 ^ (- p), b).

(** The Number value for the rational [a/b] (with [0 <= a], [0 < b]):
    the nearest binary64 value, ties to the even significand, overflowing
    to infinity from [2^1024]. *)
Definition round_ratio (neg : bool) (a b : Z) : number :=
  if a <=? 0 then S754_zero neg else
  let l0 := Z.log2 a - Z.log2 b in
  let '(n0, d0) := scale2 a b l0 in
  let l := if d0 <=? n0 then l0 else l0 - 1 in
  let e := Z.max (l - 52) (-1074) in
  let '(n, d) := scale2 a b e in
  let q := n / d in
  let r := n mod d in
  let m := if (d <? 2 * r) || ((d =? 2 * r) && Z.odd q) then q + 1 else q in
  let '(m, e) := if m =? 2 ^ 53 then (2 ^ 52, e + 1) else (m, e) in
  if m =? 0 then S754_zero neg
  else if 971 <? e then S754_infinity neg
  else S754_finite neg (Z.to_pos m) e.

(** The Number value of an integer. *)
Definition of_Z (z : Z) : number := round_ratio (z <? 0) (Z.abs z) 1.

(** The exact value of a positive finite Number as a fraction. *)
Definition ratio_of (m : positive) (e : Z) : Z * Z := scale2 (Z.pos m) 1 (- e).

(** *** Decimal digits *)

Definition digit (d : Z) : N := (48 + Z.to_N d)%N.

Fixpoint digits_aux (fuel : nat) (n : Z) (acc : jsstring) : jsstring :=
  match fuel with
  | O => digit (n mod 10) :: acc
  | S f =>
      if n <? 10 then digit n :: acc
      else digits_aux f (n / 10) (digit (n mod 10) :: acc)
  end.

(** The decimal representation of a non-negative integer, most significant
    digit first, without leading zeros. *)
Definition digits (n : Z) : jsstring :=
  digits_aux (Z.to_nat (Z.log2 n)) n [].

Definition isDigit (c : N) : bool := ((48 <=? c) && (c <=? 57))%N.

(** The integer denoted by a string of digits in base [radix]. *)
Definition digit_value (c : N) : Z :=
  if isDigit c then Z.of_N c - 48
  else if ((97 <=? c) && (c <=? 102))%N then Z.of_N c - 87
  else Z.of_N c - 55.

Definition digits_value (radix : Z) (ds : jsstring) : Z :=
  fold_left (fun acc c => acc * radix + digit_value c) ds 0.

Definition zeros (n : nat) : jsstring := repeat 48%N n.

(** *** Number::toString (radix 10) *)

(** The least [n], searching upward from [n0], with [a/b < 10^n]. *)
Fixpoint decimal_exponent (fuel : nat) (a b n0 : Z) : Z :=
  let '(x, y) := scale10 a b n0 in
  if x <? y then n0
  else match fuel with
       | O => n0
       | S f => decimal_exponent f a b (n0 + 1)
       end.

(** Does the decimal [s * 10^p] denote the Number [S754_finite false m e],
    that is, does it round to the value of that Number? *)
Definition denotes (s p : Z) (m : positive) (e : Z) : bool :=
  let '(x, y) := scale10 s 1 (- p) in
  match round_ratio false x y with
  | S754_finite false m' e' =>
      let '(a, b) := ratio_of m e in
      let '(a', b') := ratio_of m' e' in
      a' * b =? a * b'
  | _ => false
  end.

(** For [k] digits: the candidates [s] with [10^(k-1) <= s < 10^k] such that
    [s * 10^(n-k)] denotes the Number; among two, the one closest to the
    Number, the even one on a tie.  Returns [(n, s)]. *)
Definition shortest_at (m : positive) (e n k : Z) : option (Z * Z) :=
  let '(a, b) := ratio_of m e in
  let '(x, y) := scale10 a b (n - k) in
  let lo := x / y in
  let hi := lo + 1 in
  let norm s := if s =? 10 ^ k then (n + 1, 10 ^ (k - 1)) else (n, s) in
  match denotes lo (n - k) m e, denotes hi (n - k) m e with
  | true, true =>
      match 2 * x ?= (2 * lo + 1) * y with
      | Lt => Some (n, lo)
      | Gt => Some (norm hi)
      | Eq => if Z.even lo then Some (n, lo) else Some (norm hi)
      end
  | true, false => Some (n, lo)
  | false, true => Some (norm hi)
  | false, false => None
  end.

Fixpoint shortest (fuel : nat) (m : positive) (e n k : Z) : Z * Z * Z :=
  match shortest_at m e n k with
  | Some (n', s) => (n', k, s)
  | None =>
      match fuel with
      | O => (n, k, fst (ratio_of m e) / snd (ratio_of m e))
      | S f => shortest f m e n (k + 1)
      end
  end.

(** Steps 5 to 11 of Number::toString for a positive finite Number. *)
Definition toString_pos (m : positive) (e : Z) : jsstring :=
  let '(a, b) := ratio_of m e in
  let n0 := decimal_exponent 700 a b (-324) in
  let '(n, k, s) := shortest 20 m e n0 1 in
  let ds := digits s in
  if (k <=? n) && (n <=? 21) then ds ++ zeros (Z.to_nat (n - k))
  else if (0 <? n) && (n <=? 21) then
    firstn (Z.to_nat n) ds ++ Js.lit "." ++ skipn (Z.to_nat n) ds
  else if (-6 <? n) && (n <=? 0) then
    Js.lit "0." ++ zeros (Z.to_nat (- n)) ++ ds
  else
    let x := n - 1 in
    let sign := if 0 <=? x then Js.lit "+" else Js.lit "-" in
    match ds with
    | [] => []
    | d :: rest =>
        (if k =? 1 then [d] else d :: Js.lit "." ++ rest)
        ++ Js.lit "e" ++ sign ++ digits (Z.abs x)
    end.

(** [Number::toString(x, 10)] *)
Definition toString (x : number) : jsstring :=
  match x with
  | S754_nan => Js.lit "NaN"
  | S754_zero _ => Js.lit "0"
  | S754_infinity s => (if s then Js.lit "-" else []) ++ Js.lit "Infinity"
  | S754_finite s m e => (if s then Js.lit "-" else []) ++ toString_pos m e
  end.

(** *** Number.prototype.toFixed *)

(** [x.toFixed(f)] for [0 <= f]: a Number that is not finite, or whose
    magnitude is at least [10^21], is rendered by [toString]; otherwise the
    integer [n] nearest to [x * 10^f] (the larger on a tie) is written with
    at least [f + 1] digits and a point before the last [f]. *)
Definition toFixed (x : number) (f : nat) : jsstring :=
  match x with
  | S754_finite s m e =>
      let '(a, b) := ratio_of m e in
      if 10 ^ 21 * b <=? a then toString x
      else
        let p := 10 ^ Z.of_nat f in
        let n := (2 * a * p + b) / (2 * b) in
        let ds := digits n in
        let ds := zeros (S f - length ds) ++ ds in
        let k := length ds in
        (if s then Js.lit "-" else [])
        ++ (if Nat.eqb f 0 then ds
            else firstn (k - f) ds ++ Js.lit "." ++ skipn (k - f) ds)
  | S754_zero _ =>
      if Nat.eqb f 0 then Js.lit "0" else Js.lit "0." ++ zeros f
  | _ => toString x
  end.

End Num.

(** *** StringToNumber *)

Module StrNum.
Import Num.

(** [span p s]: the longest prefix of [s] whose code units satisfy [p], and
    the rest. *)
Fixpoint span (p : N -> bool) (s : jsstring) : jsstring * jsstring :=
  match s with
  | c :: s' =>
      if p c then let '(a, b) := span p s' in (c :: a, b) else ([], s)
  | [] => ([], [])
  end.

Definition isHexDigit (c : N) : bool :=
  (isDigit c || (97 <=? c) && (c <=? 102) || (65 <=? c) && (c <=? 70))%N.
Definition isOctalDigit (c : N) : bool := ((48 <=? c) && (c <=? 55))%N.
Definition isBinaryDigit (c : N) : bool := ((48 <=? c) && (c <=? 49))%N.

(** NonDecimalIntegerLiteral: [0x], [0o] or [0b] followed by one or more
    digits of that radix and nothing else. *)
Definition nonDecimal (t : jsstring) : option number :=
  match t with
  | 48%N :: c :: ds =>
      let lit radix (p : N -> bool) :=
        match ds with
        | [] => None
        | _ => if forallb p ds
               then Some (round_ratio false (digits_value radix ds) 1)
               else None
        end in
      if ((c =? 120) || (c =? 88))%N then lit 16 isHexDigit
      else if ((c =? 111) || (c =? 79))%N then lit 8 isOctalDigit
      else if ((c =? 98) || (c =? 66))%N then lit 2 isBinaryDigit
      else None
  | _ => None
  end.

(** An optional sign. *)
Definition sign (t : jsstring) : bool * jsstring :=
  match t with
  | 43%N :: r => (false, r)
  | 45%N :: r => (true, r)
  | _ => (false, t)
  end.

(** ExponentPart, which must end the literal; absent, it counts as 0. *)
Definition exponentPart (t : jsstring) : option Z :=
  match t with
  | [] => Some 0
  | c :: r =>
      if ((c =? 101) || (c =? 69))%N then
        let '(neg, ds) := sign r in
        match ds with
        | [] => None
        | _ => if forallb isDigit ds
               then Some (if neg then - digits_value 10 ds
                          else digits_value 10 ds)
               else None
        end
      else None
  end.

(** StrUnsignedDecimalLiteral other than [Infinity]: digits with an optional
    fraction and exponent, at least one digit before or after the point.
    Returns the integer [v] and exponent [p] with mathematical value
    [v * 10^p]. *)
Definition unsignedDecimal (t : jsstring) : option (Z * Z) :=
  let '(int, r1) := span isDigit t in
  let '(frac, r2) :=
    match r1 with
    | 46%N :: r => span isDigit r
    | _ => ([], r1)
    end in
  match int ++ frac with
  | [] => None
  | ds =>
      match exponentPart r2 with
      | Some x => Some (digits_value 10 ds, x - Z.of_nat (length frac))
      | None => None
      end
  end.

(** StrDecimalLiteral *)
Definition decimal (t : jsstring) : option number :=
  let '(neg, u) := sign t in
  if Js.eqb u (Js.lit "Infinity") then Some (S754_infinity neg)
  else match unsignedDecimal u with
       | Some (v, p) =>
           let '(a, b) := scale10 v 1 (- p) in Some (round_ratio neg a b)
       | None => None
       end.

(** [StringToNumber(s)]: surrounding white space is ignored, the empty
    literal is [+0], anything that is not a StringNumericLiteral is NaN. *)
Definition StringToNumber (s : jsstring) : number :=
  match Js.trim s with
  | [] => zero
  | t =>
      match nonDecimal t with
      | Some x => x
      | None => match decimal t with Some x => x | None => NaN end
      end
  end.

End StrNum.

(** ** Values

    The values the handlers read from the columns of a row and pass to the
    formatters: the primitive JavaScript values (the selected columns are
    scalar; arrays and objects are left out). *)

Inductive value :=
| VUndefined
| VNull
| VBool (b : bool)
| VNum (x : Num.number)
| VStr (s : jsstring).

(** [String(v)] *)
Definition String_ (v : value) : jsstring :=
  match v with
  | VUndefined => Js.lit "undefined"
  | VNull => Js.lit "null"
  | VBool b => if b then Js.lit "true" else Js.lit "false"
  | VNum x => Num.toString x
  | VStr s => s
  end.

(** [Number(v)] *)
Definition Number_ (v : value) : Num.number :=
  match v with
  | VUndefined => Num.NaN
  | VNull => Num.zero
  | VBool b => if b then Num.of_Z 1 else Num.zero
  | VNum x => x
  | VStr s => StrNum.StringToNumber s
  end.

(** Truthiness: [undefined], [null], [false], [0], [NaN] and the empty string
    are falsy. *)
Definition truthy (v : value) : bool :=
  match v with
  | VUndefined | VNull => false
  | VBool b => b
  | VNum (S754_zero _) | VNum S754_nan => false
  | VNum _ => true
  | VStr s => Js.truthy s
  end.

(** [v ?? d] *)
Definition nullish_or (v d : value) : value :=
  match v with VUndefined | VNull => d | _ => v end.

(** ** The host

    What the code obtains from its runtime and its collaborators and does
    not compute itself: the parts of [Date.parse] that ECMA-262 leaves to the
    implementation, the verification of a signed token ([jwt.verify] of the
    jsonwebtoken package) and the hosted model ([generateContent]). *)

Record Host := {
  (** [Date.parse] on a string that is not in the Date Time String Format:
      a time value, or [None] for NaN. *)
  date_parse_fallback : jsstring -> option Z;
  (** The offset of local time from UTC, in milliseconds, at a local time. *)
  local_tza : Z -> Z;
  (** [jwt.verify(token, secret)]: [None] when it throws, otherwise the
      value of [decoded?.sub]. *)
  jwt_verify : jsstring -> jsstring -> option value;
  (** [ai.models.generateContent] on an API key, a media type and the file
      bytes: the message of the error thrown, or [response.text]
      ([None] when undefined). *)
  generate_content :
    jsstring -> jsstring -> list N -> jsstring + option jsstring;
  (** The message of the SyntaxError that [JSON.parse] throws on a text. *)
  syntax_error_message : jsstring -> jsstring
}.

(** ** Dates

    Time values are integers, milliseconds since the epoch; [None] stands for
    the NaN time value of an invalid Date. *)

Module Date.
Import Num.

Definition msPerDay : Z := 86400000.

Definition Day (t : Z) : Z := t / msPerDay.

Definition DayFromYear (y : Z) : Z :=
  365 * (y - 1970) + (y - 1969) / 4 - (y - 1901) / 100 + (y - 1601) / 400.

Definition isLeapYear (y : Z) : bool :=
  (y mod 4 =? 0) && (negb (y mod 100 =? 0) || (y mod 400 =? 0)).

Fixpoint year_down (fuel : nat) (y d : Z) : Z :=
  if DayFromYear y <=? d then y
  else match fuel with O => y | S f => year_down f (y - 1) d end.

Fixpoint year_up (fuel : nat) (y d : Z) : Z :=
  if d <? DayFromYear (y + 1) then y
  else match fuel with O => y | S f => year_up f (y + 1) d end.

(** The largest year that starts on or before day [d]: an estimate from the
    mean length of a year, corrected by at most two steps either way. *)
Definition YearFromDay (d : Z) : Z :=
  year_up 2 (year_down 2 (1970 + d * 400 / 146097) d) d.

Definition YearFromTime (t : Z) : Z := YearFromDay (Day t).

(** The day within the year on which month [m] (0 for January) starts. *)
Definition month_start (leap : bool) (m : Z) : Z :=
  let l := if leap then 1 else 0 in
  match m with
  | 0 => 0 | 1 => 31 | 2 => 59 + l | 3 => 90 + l | 4 => 120 + l
  | 5 => 151 + l | 6 => 181 + l | 7 => 212 + l | 8 => 243 + l
  | 9 => 273 + l | 10 => 304 + l | 11 => 334 + l | _ => 365 + l
  end.

Definition DayWithinYear (t : Z) : Z := Day t - DayFromYear (YearFromTime t).

(** The month (0 to 11) of day [dy] within a year. *)
Definition month_of (leap : bool) (dy : Z) : Z :=
  match find (fun m => dy <? month_start leap (m + 1))
             [0; 1; 2; 3; 4; 5; 6; 7; 8; 9; 10] with
  | Some m => m
  | None => 11
  end.

Definition MonthFromTime (t : Z) : Z :=
  month_of (isLeapYear (YearFromTime t)) (DayWithinYear t).

Definition DateFromTime (t : Z) : Z :=
  DayWithinYear t
  - month_start (isLeapYear (YearFromTime t)) (MonthFromTime t) + 1.

(** [MakeDay(year, month, date)] for a month in 0 to 11. *)
Definition MakeDay (y m d : Z) : Z :=
  DayFromYear y + month_start (isLeapYear y) m + d - 1.

Definition MakeTime (h mi s ms : Z) : Z :=
  h * 3600000 + mi * 60000 + s * 1000 + ms.

Definition MakeDate (day time : Z) : Z := day * msPerDay + time.

(** [TimeClip] on an integral time. *)
Definition TimeClip (t : Z) : option Z :=
  if Z.abs t <=? 8640000000000000 then Some t else None.

(** [TimeClip] on a Number: not finite is NaN, otherwise truncate. *)
Definition TimeClip_number (x : number) : option Z :=
  match x with
  | S754_zero _ => Some 0
  | S754_finite s m e =>
      let '(a, b) := ratio_of m e in
      TimeClip (if s then - (a / b) else a / b)
  | _ => None
  end.

(** [n] written with at least [w] digits. *)
Definition pad (w : nat) (n : Z) : jsstring :=
  let ds := digits n in zeros (w - length ds) ++ ds.

(** The date part [YYYY-MM-DD] of [toISOString]; years outside 0 to 9999
    are written with a sign and six digits. *)
Definition isoDate (t : Z) : jsstring :=
  let y := YearFromTime t in
  (if (0 <=? y) && (y <=? 9999) then pad 4 y
   else (if y <? 0 then Js.lit "-" else Js.lit "+") ++ pad 6 (Z.abs y))
  ++ Js.lit "-" ++ pad 2 (MonthFromTime t + 1)
  ++ Js.lit "-" ++ pad 2 (DateFromTime t).

(** The time part [HH:mm:ss.sss] of [toISOString]. *)
Definition isoTime (t : Z) : jsstring :=
  pad 2 ((t / 3600000) mod 24) ++ Js.lit ":" ++ pad 2 ((t / 60000) mod 60)
  ++ Js.lit ":" ++ pad 2 ((t / 1000) mod 60)
  ++ Js.lit "." ++ pad 3 (t mod 1000).

(** [date.toISOString()] for a valid time value. *)
Definition toISOString (t : Z) : jsstring :=
  isoDate t ++ Js.lit "T" ++ isoTime t ++ Js.lit "Z".

(** *** The Date Time String Format *)

Record fields := {
  f_year : Z; f_month : Z; f_day : Z;
  f_time : option (Z * Z * Z * Z);   (* hour, minute, second, millisecond *)
  f_offset : option Z                (* minutes east of UTC; None: absent *)
}.

Definition take_digits (n : nat) (s : jsstring) : option (Z * jsstring) :=
  let ds := firstn n s in
  if Nat.eqb (length ds) n && forallb isDigit ds
  then Some (digits_value 10 ds, skipn n s) else None.

(** [YYYY], or a sign and [YYYYYY]. *)
Definition read_year (s : jsstring) : option (Z * jsstring) :=
  match s with
  | 43%N :: r => take_digits 6 r
  | 45%N :: r =>
      match take_digits 6 r with
      | Some (y, r') => if y =? 0 then None else Some (- y, r')
      | None => None
      end
  | _ => take_digits 4 s
  end.

(** An optional [-NN]. *)
Definition read_dash2 (s : jsstring) : option (option Z * jsstring) :=
  match s with
  | 45%N :: r =>
      match take_digits 2 r with
      | Some (n, r') => Some (Some n, r')
      | None => None
      end
  | _ => Some (None, s)
  end.

(** [Z], or a sign and [HH:mm], ending the string; or nothing. *)
Definition read_offset (s : jsstring) : option (option Z) :=
  match s with
  | [] => Some None
  | [90%N] => Some (Some 0)
  | c :: r =>
      if ((c =? 43) || (c =? 45))%N then
        match take_digits 2 r with
        | Some (h, 58%N :: r') =>
            match take_digits 2 r' with
            | Some (m, []) =>
                if (h <=? 23) && (m <=? 59)
                then Some (Some ((if (c =? 45)%N then -1 else 1) * (h * 60 + m)))
                else None
            | _ => None
            end
        | _ => None
        end
      else None
  end.

(** [HH:mm], [HH:mm:ss] or [HH:mm:ss.sss], then the offset. *)
Definition read_time (s : jsstring)
  : option (Z * Z * Z * Z * option Z) :=
  match take_digits 2 s with
  | Some (h, 58%N :: r1) =>
      match take_digits 2 r1 with
      | Some (mi, 58%N :: r2) =>
          match take_digits 2 r2 with
          | Some (sec, 46%N :: r3) =>
              match take_digits 3 r3 with
              | Some (ms, r4) =>
                  option_map (fun o => (h, mi, sec, ms, o)) (read_offset r4)
              | None => None
              end
          | Some (sec, r3) =>
              option_map (fun o => (h, mi, sec, 0, o)) (read_offset r3)
          | None => None
          end
      | Some (mi, r2) => option_map (fun o => (h, mi, 0, 0, o)) (read_offset r2)
      | None => None
      end
  | _ => None
  end.

(** The shape of the format: [None] when the string is not in it. *)
Definition read_fields (s : jsstring) : option fields :=
  match read_year s with
  | None => None
  | Some (y, r) =>
      match read_dash2 r with
      | None => None
      | Some (mo, r1) =>
          match (match mo with
                 | Some _ => read_dash2 r1
                 | None => Some (None, r1)
                 end) with
          | None => None
          | Some (da, r2) =>
              let mk t o :=
                {| f_year := y; f_month := default 1 mo; f_day := default 1 da;
                   f_time := t; f_offset := o |} in
              match r2 with
              | [] => Some (mk None None)
              | 84%N :: r3 =>
                  match read_time r3 with
                  | Some (h, mi, sec, ms, o) => Some (mk (Some (h, mi, sec, ms)) o)
                  | None => None
                  end
              | _ => None
              end
          end
      end
  end.

(** The element values are within the bounds of the format: months 01 to
    12, days 01 to 31, a time of day up to [24:00:00.000]. *)
Definition legal (f : fields) : bool :=
  (1 <=? f_month f) && (f_month f <=? 12)
  && (1 <=? f_day f) && (f_day f <=? 31)
  && match f_time f with
     | None => true
     | Some (h, mi, sec, ms) =>
         (mi <=? 59) && (sec <=? 59)
         && ((h <=? 23) || (h =? 24) && (mi =? 0) && (sec =? 0) && (ms =? 0))
     end.

(** [Date.parse(s)]: a string in the format denotes the time it spells, in
    UTC for a date alone, in local time for a date and time without offset
    (a day past the end of its month runs into the next month, as [MakeDay]
    computes it); element values out of bounds give NaN; any other string is
    left to the host. *)
Definition parse (h : Host) (s : jsstring) : option Z :=
  match read_fields s with
  | None => date_parse_fallback h s
  | Some f =>
      if legal f then
        let day := MakeDay (f_year f) (f_month f - 1) (f_day f) in
        match f_time f with
        | None => Some (MakeDate day 0)
        | Some (hh, mi, sec, ms) =>
            let t := MakeDate day (MakeTime hh mi sec ms) in
            match f_offset f with
            | Some o => Some (t - o * 60000)
            | None => Some (t - local_tza h t)
            end
        end
      else None
  end.

(** [new Date(v)]: the time value of the new Date. *)
Definition new (h : Host) (v : value) : option Z :=
  match v with
  | VStr s => t ← parse h s; TimeClip t
  | _ => TimeClip_number (Number_ v)
  end.

End Date.

(** The text before the first occurrence of the code unit [sep]:
    [s.split(sep)[0]]. *)
Fixpoint split_head (sep : N) (s : jsstring) : jsstring :=
  match s with
  | c :: s' => if (c =? sep)%N then [] else c :: split_head sep s'
  | [] => []
  end.

(** ** CSV field formatters *)

(** The test of the character class of [csvEscape]: does [s] contain a
    double quote, a comma or a line feed? *)
Definition needs_quoting (s : jsstring) : bool :=
  existsb (fun c => (c =? Js.DQUOTE) || (c =? Js.COMMA) || (c =? Js.LF))%N s.

(** The global replace of [csvEscape]: every double quote is doubled. *)
Definition double_quotes (s : jsstring) : jsstring :=
  flat_map (fun c => if (c =? Js.DQUOTE)%N then [Js.DQUOTE; Js.DQUOTE] else [c]) s.

(** [csvEscape(value)]: nothing for [null] and [undefined]; otherwise the
    string of the value, quoted when it needs to be. *)
Definition csvEscape (value : value) : jsstring :=
  match value with
  | VNull | VUndefined => []
  | _ =>
      let s := String_ value in
      if needs_quoting s
      then [Js.DQUOTE] ++ double_quotes s ++ [Js.DQUOTE]
      else s
  end.

(** [formatNumber(n)]: nothing for [null], [undefined], the empty string
    and what converts to NaN; otherwise [toFixed(2)] of the Number. *)
Definition formatNumber (n : value) : jsstring :=
  match n with
  | VNull | VUndefined | VStr [] => []
  | _ =>
      let num := Number_ n in
      if Num.isNaN num then [] else Num.toFixed num 2
  end.

(** [formatDate(d)]: nothing for a falsy value and for an invalid Date;
    otherwise the part of [toISOString()] before the [T].  (Neither
    [new Date] on a primitive value nor [toISOString] on a valid Date
    throws, so the [catch] of the source is never entered.) *)
Definition formatDate (h : Host) (d : value) : jsstring :=
  if negb (truthy d) then []
  else match Date.new h d with
       | None => []
       | Some date => split_head 84%N (Date.toISOString date)
       end.

(** ** Regular expressions

    The fragment of ECMAScript regular expressions that [extractJson] uses,
    with the backtracking semantics of the language: a pattern is a
    sequence of atoms, matched left to right; a greedy star tries the
    longest repetition first, a lazy star the shortest; [exec] returns the
    leftmost match. *)

Module Regex.

Inductive atom :=
| Chr (c : N)                          (* a literal code unit *)
| Star (greedy : bool) (p : N -> bool) (* [X*] or [X*?], [X] a class *)
| Open                                 (* the opening parenthesis of group 1 *)
| Close.                               (* its closing parenthesis *)

(** Canonicalize under the [i] flag, on the ASCII range where the literals
    of the patterns live (no code unit from 128 up canonicalizes to an
    ASCII one). *)
Definition canon (ci : bool) (c : N) : N :=
  if ci && (97 <=? c)%N && (c <=? 122)%N then (c - 32)%N else c.

(** The text consumed inside the open group, latest code unit first. *)
Definition push (c : N) (grp : option jsstring) : option jsstring :=
  option_map (cons c) grp.

(** [run ci r s grp cap]: match the atoms [r] at the start of [s]; [grp] is
    the text of the group while it is open, [cap] its capture once closed.
    The result is the capture of the first successful alternative. *)
Fixpoint run (ci : bool) (r : list atom) (s : jsstring)
    (grp cap : option jsstring) {struct r} : option (option jsstring) :=
  match r with
  | [] => Some cap
  | Chr c :: r' =>
      match s with
      | x :: s' =>
          if (canon ci x =? canon ci c)%N then run ci r' s' (push x grp) cap
          else None
      | [] => None
      end
  | Star true p :: r' =>
      (fix star (s : jsstring) (grp : option jsstring) :=
         match s with
         | x :: s' =>
             if p x then
               match star s' (push x grp) with
               | Some m => Some m
               | None => run ci r' s grp cap
               end
             else run ci r' s grp cap
         | [] => run ci r' s grp cap
         end) s grp
  | Star false p :: r' =>
      (fix star (s : jsstring) (grp : option jsstring) :=
         match run ci r' s grp cap with
         | Some m => Some m
         | None =>
             match s with
             | x :: s' => if p x then star s' (push x grp) else None
             | [] => None
             end
         end) s grp
  | Open :: r' => run ci r' s (Some []) cap
  | Close :: r' => run ci r' s None (option_map (@rev N) grp)
  end.

(** [re.exec(s)] for a pattern without the [g] flag: the match at the
    leftmost position that has one; the result is group 1. *)
Fixpoint exec (ci : bool) (r : list atom) (s : jsstring)
  : option (option jsstring) :=
  match run ci r s None None with
  | Some m => Some m
  | None => match s with [] => None | _ :: s' => exec ci r s' end
  end.

Definition any (c : N) : bool := true.
Definition chars (s : String.string) : list atom := List.map Chr (Js.lit s).

(** [m && m[1]]: the capture when there is a match and the capture is a
    non-empty string. *)
Definition group1 (m : option (option jsstring)) : option jsstring :=
  match m with
  | Some (Some c) => if Js.truthy c then Some c else None
  | _ => None
  end.

End Regex.

(** ** The JSON extractor *)

(** The end of both patterns: the closing parenthesis of the group, white
    space, three backticks. *)
Definition closing_re : list Regex.atom :=
  Regex.Close :: Regex.Star true Js.isWhite :: Regex.chars "```".

(** What follows the opening fence in both patterns: white space, a lazy
    group of anything, and the end above. *)
Definition tail_re : list Regex.atom :=
  Regex.Star true Js.isWhite :: Regex.Open :: Regex.Star false Regex.any
  :: closing_re.

(** Three backticks and [json], then the tail; used with the [i] flag. *)
Definition fenceJson_re : list Regex.atom := Regex.chars "```json" ++ tail_re.

(** Three backticks, then the tail; used without flag. *)
Definition fence_re : list Regex.atom := Regex.chars "```" ++ tail_re.

(** [extractJson(s)]; [None] stands for [null]. *)
Definition extractJson (s : jsstring) : option jsstring :=
  if negb (Js.truthy s) then None
  else
    match Regex.group1 (Regex.exec true fenceJson_re s) with
    | Some c => Some (Js.trim c)
    | None =>
        match Regex.group1 (Regex.exec false fence_re s) with
        | Some c => Some (Js.trim c)
        | None =>
            let first := Js.indexOf Js.LBRACE s in
            let last := Js.lastIndexOf Js.RBRACE s in
            if negb (first =? -1) && negb (last =? -1) && (first <? last)
            then Some (Js.slice first (last + 1) s)
            else None
        end
    end.

(** ** JSON.parse *)

#[warnings="-register-all"] Inductive json :=
| JNull
| JBool (b : bool)
| JNum (x : Num.number)
| JStr (s : jsstring)
| JArr (items : list json)
| JObj (members : list (jsstring * json)).

Module Json.
Import Num.

(** JSON white space: space, tab, line feed, carriage return. *)
Definition isWs (c : N) : bool :=
  ((c =? 32) || (c =? 9) || (c =? 10) || (c =? 13))%N.

Fixpoint skip_ws (s : jsstring) : jsstring :=
  match s with
  | c :: s' => if isWs c then skip_ws s' else s
  | [] => []
  end.

Definition hex4 (a b c d : N) : option N :=
  if forallb StrNum.isHexDigit [a; b; c; d]
  then Some (Z.to_N (digits_value 16 [a; b; c; d])) else None.

(** The characters of a string after its opening quote, up to the closing
    one; [acc] holds the code units read, latest first. *)
Fixpoint string_body (s acc : jsstring) : option (jsstring * jsstring) :=
  match s with
  | [] => None
  | 34%N :: r => Some (rev acc, r)
  | 92%N :: 117%N :: a :: b :: c :: d :: r =>
      match hex4 a b c d with
      | Some u => string_body r (u :: acc)
      | None => None
      end
  | 92%N :: e :: r =>
      let esc u := string_body r (u :: acc) in
      if (e =? 34)%N then esc 34%N else if (e =? 92)%N then esc 92%N
      else if (e =? 47)%N then esc 47%N else if (e =? 98)%N then esc 8%N
      else if (e =? 102)%N then esc 12%N else if (e =? 110)%N then esc 10%N
      else if (e =? 114)%N then esc 13%N else if (e =? 116)%N then esc 9%N
      else None
  | c :: r => if (c <? 32)%N || (c =? 92)%N then None else string_body r (c :: acc)
  end.

(** A number: an optional minus, an integer part without superfluous
    leading zeros, an optional fraction, an optional exponent. *)
Definition number_ (s : jsstring) : option (number * jsstring) :=
  let '(neg, r0) := match s with 45%N :: r => (true, r) | _ => (false, s) end in
  let '(int, r1) := StrNum.span isDigit r0 in
  let int_ok := match int with
                | [] => false
                | 48%N :: _ :: _ => false
                | _ => true
                end in
  let frac := match r1 with
              | 46%N :: r => let '(f, r2) := StrNum.span isDigit r in
                             match f with [] => None | _ => Some (f, r2) end
              | _ => Some ([], r1)
              end in
  match int_ok, frac with
  | true, Some (f, r2) =>
      let expo :=
        match r2 with
        | c :: r =>
            if ((c =? 101) || (c =? 69))%N then
              let '(eneg, r3) := StrNum.sign r in
              let '(ds, r4) := StrNum.span isDigit r3 in
              match ds with
              | [] => None
              | _ => Some (if eneg then - digits_value 10 ds
                           else digits_value 10 ds, r4)
              end
            else Some (0, r2)
        | [] => Some (0, r2)
        end in
      match expo with
      | Some (x, rest) =>
          let '(a, b) :=
            scale10 (digits_value 10 (int ++ f)) 1
                    (Z.of_nat (length f) - x) in
          Some (round_ratio neg a b, rest)
      | None => None
      end
  | _, _ => None
  end.

(** Setting a property: a repeated key keeps its place and takes the new
    value. *)
Fixpoint set_member (k : jsstring) (v : json) (ms : list (jsstring * json))
  : list (jsstring * json) :=
  match ms with
  | [] => [(k, v)]
  | (k', v') :: ms' =>
      if Js.eqb k k' then (k, v) :: ms' else (k', v') :: set_member k v ms'
  end.

(** A value; the elements of an array up to its closing bracket; the
    members of an object up to its closing brace.  Each returns the rest of
    the text. *)
Fixpoint value_ (fuel : nat) (s : jsstring) : option (json * jsstring) :=
  match fuel with
  | O => None
  | S f =>
      match skip_ws s with
      | 110%N :: 117%N :: 108%N :: 108%N :: r => Some (JNull, r)
      | 116%N :: 114%N :: 117%N :: 101%N :: r => Some (JBool true, r)
      | 102%N :: 97%N :: 108%N :: 115%N :: 101%N :: r => Some (JBool false, r)
      | 34%N :: r =>
          match string_body r [] with
          | Some (str, r') => Some (JStr str, r')
          | None => None
          end
      | 91%N :: r =>
          match skip_ws r with
          | 93%N :: r' => Some (JArr [], r')
          | r' => elements f r' []
          end
      | 123%N :: r =>
          match skip_ws r with
          | 125%N :: r' => Some (JObj [], r')
          | r' => members f r' []
          end
      | t => option_map (fun '(x, r) => (JNum x, r)) (number_ t)
      end
  end
with elements (fuel : nat) (s : jsstring) (acc : list json)
  : option (json * jsstring) :=
  match fuel with
  | O => None
  | S f =>
      match value_ f s with
      | Some (v, r) =>
          match skip_ws r with
          | 93%N :: r' => Some (JArr (rev (v :: acc)), r')
          | 44%N :: r' => elements f r' (v :: acc)
          | _ => None
          end
      | None => None
      end
  end
with members (fuel : nat) (s : jsstring) (acc : list (jsstring * json))
  : option (json * jsstring) :=
  match fuel with
  | O => None
  | S f =>
      match skip_ws s with
      | 34%N :: r1 =>
          match string_body r1 [] with
          | Some (k, r2) =>
              match skip_ws r2 with
              | 58%N :: r3 =>
                  match value_ f r3 with
                  | Some (v, r4) =>
                      match skip_ws r4 with
                      | 125%N :: r => Some (JObj (set_member k v acc), r)
                      | 44%N :: r => members f r (set_member k v acc)
                      | _ => None
                      end
                  | None => None
                  end
              | _ => None
              end
          | None => None
          end
      | _ => None
      end
  end.

(** [JSON.parse(text)]: [None] when it throws a SyntaxError. *)
Definition parse (text : jsstring) : option json :=
  match value_ (2 * length text + 2) text with
  | Some (v, rest) => match skip_ws rest with [] => Some v | _ => None end
  | None => None
  end.

End Json.

(** ** The server *)

(** [process.env], as far as the handlers read it. *)
Record Env := {
  SUPABASE_JWT_SECRET : option jsstring;
  GEMINI_API_KEY : option jsstring;
  GOOGLE_API_KEY : option jsstring
}.

(** A row of [receipt_items], as selected. *)
Record Item := {
  name : value;
  quantity : value;
  price : value
}.

(** A row of [receipts] with its embedded items; [receipt_items] is [None]
    when the embedded value is not an array. *)
Record Receipt := {
  id : jsstring;
  user_id : jsstring;
  merchant : value;
  purchase_at : value;
  total : value;
  currency : value;
  category : value;
  receipt_items : option (list Item)
}.

(** The store behind the Supabase client: the rows of [receipts], and the
    error with which the store answers every query while it is failing. *)
Record Store := {
  receipts : list Receipt;
  fault : option jsstring
}.

(** The query the export handler sends: the two equality filters. *)
Record Query := {
  q_id : jsstring;
  q_user_id : jsstring
}.

(** The answer [{ data, error }] of a query ending in [maybeSingle()]. *)
Record Answer := {
  data : option Receipt;
  error : option jsstring
}.

(** [from("receipts").select(...).eq("id", i).eq("user_id", u).maybeSingle()]:
    the rows passing both filters; none gives no data and no error, one
    gives the row, several give an error. *)
Definition maybeSingle (st : Store) (q : Query) : Answer :=
  match fault st with
  | Some e => {| data := None; error := Some e |}
  | None =>
      match List.filter (fun r => Js.eqb (id r) (q_id q)
                                  && Js.eqb (user_id r) (q_user_id q))
                        (receipts st) with
      | [] => {| data := None; error := None |}
      | [r] => {| data := Some r; error := None |}
      | _ => {| data := None;
                error := Some (Js.lit "JSON object requested, multiple (or no) rows returned") |}
      end
  end.

Record Server := {
  host : Host;
  env : Env;
  (** The Supabase client; [None] when it was not created at startup. *)
  supabase : option Store
}.

Record Request := {
  headers : gmap jsstring jsstring;
  (** [request.params?.id] *)
  params_id : option jsstring
}.

(** What is handed to [reply.send]: an object with an [error] text and
    further texts, a text, or a value made by [JSON.parse]. *)
Inductive Body :=
| BError (message : jsstring) (more : list (jsstring * jsstring))
| BText (text : jsstring)
| BJson (j : json).

Record Response := {
  status : Z;
  reply_headers : list (jsstring * jsstring);
  body : Body
}.

(** [reply.status(code).send({ error: message })] *)
Definition send_error (code : Z) (message : String.string) : Response :=
  {| status := code; reply_headers := []; body := BError (Js.lit message) [] |}.

(** [a || b] on two optional strings. *)
Definition or_else (a b : option jsstring) : option jsstring :=
  match a with
  | Some s => if Js.truthy s then a else b
  | None => b
  end.

(** The header the token is read from. *)
Definition auth_header (request : Request) : option jsstring :=
  or_else (headers request !! Js.lit "authorization")
          (headers request !! Js.lit "Authorization").

(** The header is present and begins with [Bearer ]. *)
Definition has_bearer (request : Request) : bool :=
  match auth_header request with
  | Some auth => Js.startsWith (Js.lit "Bearer ") auth
  | None => false
  end.

(** [authenticate(request, reply)]: the user id, or the response sent. *)
Definition authenticate (srv : Server) (request : Request)
  : Response + jsstring :=
  match auth_header request with
  | Some auth =>
      if negb (Js.truthy auth) || negb (Js.startsWith (Js.lit "Bearer ") auth)
      then inl (send_error 401 "Missing Authorization Bearer token")
      else
        let token := Js.trim (skipn (length (Js.lit "Bearer ")) auth) in
        match SUPABASE_JWT_SECRET (env srv) with
        | Some jwtSecret =>
            if negb (Js.truthy jwtSecret)
            then inl (send_error 500 "Server missing SUPABASE_JWT_SECRET env variable")
            else
              match jwt_verify (host srv) token jwtSecret with
              | Some (VStr sub) =>
                  if Js.truthy sub then inr sub
                  else inl (send_error 401 "Invalid token: sub claim missing")
              | Some _ => inl (send_error 401 "Invalid token: sub claim missing")
              | None => inl (send_error 401 "Invalid or expired token")
              end
        | None => inl (send_error 500 "Server missing SUPABASE_JWT_SECRET env variable")
        end
  | None => inl (send_error 401 "Missing Authorization Bearer token")
  end.

(** The class of the id pattern: hexadecimal digits and the hyphen. *)
Definition isIdChar (c : N) : bool :=
  (Num.isDigit c || (97 <=? c) && (c <=? 102) || (65 <=? c) && (c <=? 70)
   || (c =? Js.HYPHEN))%N.

(** The test of the id pattern, anchored at both ends: 32 to 36 code units,
    all of the class. *)
Definition id_pattern_test (s : jsstring) : bool :=
  (32 <=? length s)%nat && (length s <=? 36)%nat && forallb isIdChar s.

(** The lines of the CSV document: [lines.push] appends. *)
Definition push (lines : list jsstring) (line : jsstring) : list jsstring :=
  lines ++ [line].

Definition item_line (item : Item) : jsstring :=
  csvEscape (name item) ++ Js.lit ","
  ++ csvEscape (nullish_or (quantity item) (VStr [])) ++ Js.lit ","
  ++ csvEscape (VStr (formatNumber (price item))).

(** The block of the export handler that builds the CSV text from the row
    and its items. *)
Definition buildReceiptCsv (h : Host) (data : Receipt) : jsstring :=
  let items := match receipt_items data with Some l => l | None => [] end in
  let lines := [] in
  let lines := push lines (Js.lit "Merchant," ++ csvEscape (merchant data)) in
  let lines := push lines (Js.lit "Purchase Date,"
                           ++ csvEscape (VStr (formatDate h (purchase_at data)))) in
  let lines := push lines (Js.lit "Total,"
                           ++ csvEscape (VStr (formatNumber (total data)))) in
  let lines := push lines (Js.lit "Currency," ++ csvEscape (currency data)) in
  let lines := push lines (Js.lit "Category," ++ csvEscape (category data)) in
  let lines := push lines (Js.lit "Receipt ID," ++ csvEscape (VStr (id data))) in
  let lines := push lines [] in
  let lines := push lines (Js.lit "Items") in
  let lines := push lines (Js.lit "Name,Quantity,Price") in
  let lines := fold_left (fun lines item => push lines (item_line item)) items lines in
  Js.join [Js.LF] lines.

(** [GET /receipts/:id/export/csv]: the response, and the queries sent to
    the store while handling the request, in order. *)
Definition export_csv (srv : Server) (request : Request)
  : Response * list Query :=
  match authenticate srv request with
  | inl sent => (sent, [])
  | inr userId =>
      match params_id request with
      | None => (send_error 400 "Invalid receipt id format", [])
      | Some receiptId =>
          if negb (Js.truthy receiptId) || negb (id_pattern_test receiptId)
          then (send_error 400 "Invalid receipt id format", [])
          else
            match supabase srv with
            | None => (send_error 500 "Supabase client not initialized on server", [])
            | Some client =>
                let q := {| q_id := receiptId; q_user_id := userId |} in
                let answer := maybeSingle client q in
                match error answer, data answer with
                | Some _, _ => (send_error 500 "Database query failed", [q])
                | None, None => (send_error 404 "Receipt not found", [q])
                | None, Some row =>
                    let csv := buildReceiptCsv (host srv) row in
                    ({| status := 200;
                        reply_headers :=
                          [(Js.lit "Content-Type", Js.lit "text/csv; charset=utf-8");
                           (Js.lit "Content-Disposition",
                            Js.lit "attachment; filename=receipt_"
                            ++ receiptId ++ Js.lit ".csv")];
                        body := BText csv |}, [q])
                end
            end
      end
  end.

(** An error thrown by the runtime or by a collaborator: its message and,
    when it carries one, its [statusCode]. *)
Record JsError := {
  error_message : jsstring;
  error_statusCode : option Z
}.

(** The file part of a multipart upload: its declared media type, the
    chunks its stream yields and, when reading the stream fails, the error
    it throws after them. *)
Record Upload := {
  mimetype : option jsstring;
  file : list (list N);
  file_error : option JsError
}.

(** The media type sent with the image: the declared one, or JPEG. *)
Definition media_type (data : Upload) : jsstring :=
  match or_else (mimetype data) None with
  | Some m => m
  | None => Js.lit "image/jpeg"
  end.

(** What a handler comes to: the reply it sent, or an error thrown out of
    it, which the framework answers in its place. *)
Inductive Outcome :=
| Sent (r : Response)
| Thrown (e : JsError).

(** [POST /analyze-receipt]; [incoming] is what [await req.file()] comes
    to: an error thrown, [undefined], or the file part.  [req.file()] and
    the loop that reads the stream stand before the [try] of the handler,
    so what they throw leaves the handler.  Between the check of the key
    and the [try] the handler only builds the client, the prompt and the
    image part.  A body [BJson j] is the value handed to [reply.send],
    which the framework serialises. *)
Definition analyze_receipt (srv : Server) (incoming : JsError + option Upload)
  : Outcome :=
  match incoming with
  | inl e => Thrown e
  | inr None =>
      Sent (send_error 400 "No file provided. Send multipart form with an image file.")
  | inr (Some data) =>
      match file_error data with
      | Some e => Thrown e
      | None =>
          let buffer := concat (file data) in
          let missing_key :=
            send_error 500 "Server missing GEMINI_API_KEY environment variable" in
          match or_else (GEMINI_API_KEY (env srv)) (GOOGLE_API_KEY (env srv)) with
          | None => Sent missing_key
          | Some apiKey =>
              if negb (Js.truthy apiKey) then Sent missing_key
              else
                let failed (details : jsstring) :=
                  {| status := 500; reply_headers := [];
                     body := BError (Js.lit "Failed to analyze receipt")
                                    [(Js.lit "details", details)] |} in
                match generate_content (host srv) apiKey (media_type data) buffer with
                | inl message => Sent (failed message)
                | inr response_text =>
                    let text := match response_text with Some t => t | None => [] end in
                    match extractJson text with
                    | None =>
                        Sent {| status := 502; reply_headers := [];
                                body := BError (Js.lit "Model did not return JSON")
                                               [(Js.lit "raw", text)] |}
                    | Some jsonText =>
                        if negb (Js.truthy jsonText) then
                          Sent {| status := 502; reply_headers := [];
                                  body := BError (Js.lit "Model did not return JSON")
                                                 [(Js.lit "raw", text)] |}
                        else
                          match Json.parse jsonText with
                          | Some parsed =>
                              Sent {| status := 200; reply_headers := [];
                                      body := BJson parsed |}
                          | None =>
                              Sent (failed (syntax_error_message (host srv) jsonText))
                          end
                    end
                end
          end
      end
  end.

(** * Specification-side definitions

    The notions the specification speaks in, defined independently of the
    code above, to be compared with it. *)

Module Spec.

(** A code unit that forces quoting: a double quote, a comma, a line feed. *)
Definition special (c : N) : Prop :=
  c = Js.DQUOTE \/ c = Js.COMMA \/ c = Js.LF.

(** The content of a quoted CSV field, read after its opening quote: a
    doubled quote stands for one quote, a single quote closes the field and
    must end it. *)
Fixpoint unquote (s : jsstring) : option jsstring :=
  match s with
  | [] => None
  | 34%N :: 34%N :: r => option_map (cons 34%N) (unquote r)
  | [34%N] => Some []
  | 34%N :: _ => None
  | c :: r => option_map (cons c) (unquote r)
  end.

(** Reading one CSV field of a document whose fields are separated by
    commas and whose records by line feeds: a field that opens with a
    double quote is quoted; any other field stands for itself and holds no
    quote, comma or line feed. *)
Definition parse_field (s : jsstring) : option jsstring :=
  match s with
  | 34%N :: r => unquote r
  | _ =>
      if existsb (fun c => (c =? 34) || (c =? 44) || (c =? 10))%N s
      then None else Some s
  end.

(** A rendering with exactly two digits after the decimal point: an
    optional minus sign, one or more digits, a point, two digits. *)
Definition unsigned (s : jsstring) : jsstring :=
  match s with 45%N :: r => r | _ => s end.

Definition two_decimals (s : jsstring) : bool :=
  match rev (unsigned s) with
  | d2 :: d1 :: 46%N :: int =>
      Num.isDigit d2 && Num.isDigit d1 && Js.truthy int
      && forallb Num.isDigit int
  | _ => false
  end.

(** A Number that [toFixed] does not render in fixed notation: an infinite
    one, or a finite one of magnitude [10^21] or more. *)
Definition beyond_fixed (x : Num.number) : bool :=
  match x with
  | S754_infinity _ => true
  | S754_finite _ m e => let '(a, b) := Num.ratio_of m e in 10 ^ 21 * b <=? a
  | _ => false
  end.

(** The Number value of the literal [12.345]: the binary64 value nearest
    to it, which lies just above it. *)
Definition n12_345 : Num.number := S754_finite false 6949617174986097 (-49).

(** The Number value of the literal [1e21]. *)
Definition n1e21 : Num.number := S754_finite false 7629394531250000 17.

(** A calendar date written [YYYY-MM-DD]: four digits, two digits, two
    digits, separated by hyphens. *)
Definition yyyy_mm_dd (s : jsstring) : bool :=
  match s with
  | [y1; y2; y3; y4; h1; m1; m2; h2; d1; d2] =>
      forallb Num.isDigit [y1; y2; y3; y4; m1; m2; d1; d2]
      && (h1 =? 45)%N && (h2 =? 45)%N
  | _ => false
  end.

(** A hexadecimal digit or a hyphen. *)
Definition hex_or_hyphen (c : N) : Prop :=
  In c (Js.lit "0123456789abcdefABCDEF-").

(** A syntactically invalid identifier: absent, of a length outside 32 to
    36, or holding a character that is neither a hexadecimal digit nor a
    hyphen. *)
Definition invalid_id (rid : option jsstring) : Prop :=
  match rid with
  | None => True
  | Some s =>
      (length s < 32)%nat \/ (36 < length s)%nat
      \/ exists c, In c s /\ ~ hex_or_hyphen c
  end.

(** A value no number can be made of: absent ([null], [undefined], the
    empty string), or converting to NaN. *)
Definition no_number (v : value) : Prop :=
  v = VNull \/ v = VUndefined \/ v = VStr [] \/ Num.isNaN (Number_ v) = true.

(** A value no date can be made of: a falsy one, or one from which
    [new Date] makes an invalid Date. *)
Definition no_date (h : Host) (v : value) : Prop :=
  truthy v = false \/ Date.new h v = None.

(** *** Fenced spans

    A fenced span opens where an opening text stands (three backticks, or
    three backticks directly followed by the letters json) and three
    backticks occur again after it; its content is everything between the
    opening text and the next three backticks.  Fences are not paired into
    blocks, and a label is not set apart from the content. *)

(** The same letter, whatever its case. *)
Definition lower (c : N) : N :=
  if ((65 <=? c) && (c <=? 90))%N then (c + 32)%N else c.

(** [strip ci p s]: the rest of [s] after its prefix [p], compared letter
    by letter, without regard to case when [ci] is set. *)
Fixpoint strip (ci : bool) (p s : jsstring) : option jsstring :=
  match p, s with
  | [], _ => Some s
  | a :: p', x :: s' =>
      if (if ci then lower x =? lower a else x =? a)%N
      then strip ci p' s' else None
  | _ :: _, [] => None
  end.

(** Three backticks. *)
Definition fence : jsstring := Js.lit "```".

(** The text before the next three backticks of [s], when there are any. *)
Fixpoint until_fence (s : jsstring) : option jsstring :=
  if Js.startsWith fence s then Some []
  else match s with
       | [] => None
       | c :: s' => option_map (cons c) (until_fence s')
       end.

(** The content of the span that opens at the very start of [s]: [s]
    begins with the opening text, and the content is what follows it, up
    to the next three backticks. *)
Definition span_at (ci : bool) (opening s : jsstring) : option jsstring :=
  match strip ci opening s with
  | Some after => until_fence after
  | None => None
  end.

(** The content of the first span of [s] with the given opening text: that
    of the span at the earliest place of [s] where one opens. *)
Fixpoint first_span (ci : bool) (opening s : jsstring) : option jsstring :=
  match span_at ci opening s with
  | Some inner => Some inner
  | None => match s with [] => None | _ :: s' => first_span ci opening s' end
  end.

(** The first span opened by three backticks and the letters json, in any
    case. *)
Definition json_span : jsstring -> option jsstring :=
  first_span true (Js.lit "```json").

(** The first span opened by three backticks alone. *)
Definition any_span : jsstring -> option jsstring :=
  first_span false fence.

(** The suffix of [s] that starts at the first [c]. *)
Fixpoint from_first (c : N) (s : jsstring) : option jsstring :=
  match s with
  | [] => None
  | x :: s' => if (x =? c)%N then Some s else from_first c s'
  end.

(** The prefix of [s] that ends at the last [c]. *)
Fixpoint upto_last (c : N) (s : jsstring) : option jsstring :=
  match s with
  | [] => None
  | x :: s' =>
      match upto_last c s' with
      | Some t => Some (x :: t)
      | None => if (x =? c)%N then Some [x] else None
      end
  end.

(** From the first opening brace to the last closing brace, when the
    former comes strictly before the latter. *)
Definition brace_span (s : jsstring) : option jsstring :=
  match from_first Js.LBRACE s with
  | Some (b :: rest) => option_map (cons b) (upto_last Js.RBRACE rest)
  | _ => None
  end.


(** A rule that yields trimmed content applies only when that content is
    not empty. *)
Definition nonempty_trimmed (inner : option jsstring) : option jsstring :=
  match inner with
  | Some t => if Js.truthy (Js.trim t) then Some (Js.trim t) else None
  | None => None
  end.

(** The amended priority order: the trimmed content of the first span
    opened by three backticks and the letters json, when it is not empty;
    else that of the first span opened by three backticks, when it is not
    empty; else the brace span; else nothing. *)
Definition extractJson_amended (s : jsstring) : option jsstring :=
  match nonempty_trimmed (json_span s) with
  | Some c => Some c
  | None =>
      match nonempty_trimmed (any_span s) with
      | Some c => Some c
      | None => brace_span s
      end
  end.

End Spec.

(** * Sample data

    A host, a server and requests on which the theorems below are
    exercised. *)

Module Sample.

(** A host that accepts one token for one secret, has no fallback date
    parser, runs in UTC, and whose model answers with the bytes of the
    upload as text. *)
Definition runtime : Host := {|
  date_parse_fallback := fun _ => None;
  local_tza := fun _ => 0;
  jwt_verify := fun token secret =>
    if Js.eqb token (Js.lit "token-of-U1") && Js.eqb secret (Js.lit "s3cret")
    then Some (VStr (Js.lit "U1")) else None;
  generate_content := fun _ _ bytes => inr (Some bytes);
  syntax_error_message := fun _ => Js.lit "Unexpected token"
|}.

Definition environment : Env := {|
  SUPABASE_JWT_SECRET := Some (Js.lit "s3cret");
  GEMINI_API_KEY := Some (Js.lit "key");
  GOOGLE_API_KEY := None
|}.

Definition id1 : jsstring := Js.lit "11111111-2222-3333-4444-555555555555".
Definition id2 : jsstring := Js.lit "aaaaaaaa-bbbb-cccc-dddd-eeeeeeeeeeee".
Definition id3 : jsstring := Js.lit "99999999-9999-9999-9999-999999999999".

Definition coffee : Item :=
  {| name := VStr (Js.lit "Coffee"); quantity := VNum (Num.of_Z 2);
     price := VNum (Num.round_ratio false 35 10) |}.

Definition bagel : Item :=
  {| name := VStr (Js.lit "Bagel, toasted"); quantity := VNull;
     price := VStr (Js.lit "5.5") |}.

(** A receipt of U1 and a receipt of U2. *)
Definition receipt1 : Receipt := {|
  id := id1; user_id := Js.lit "U1";
  merchant := VStr (Js.lit "Cafe");
  purchase_at := VStr (Js.lit "2024-03-05T10:00:00+00:00");
  total := VNum (Num.round_ratio false 125 10);
  currency := VStr (Js.lit "USD"); category := VNull;
  receipt_items := Some [coffee; bagel]
|}.

Definition receipt2 : Receipt := {|
  id := id2; user_id := Js.lit "U2";
  merchant := VStr (Js.lit "Hotel"); purchase_at := VNull;
  total := VNull; currency := VNull; category := VNull;
  receipt_items := Some []
|}.

Definition store : Store :=
  {| receipts := [receipt1; receipt2]; fault := None |}.

Definition server : Server :=
  {| host := runtime; env := environment; supabase := Some store |}.

(** The same server started without the token secret. *)
Definition server_without_secret : Server :=
  {| host := runtime;
     env := {| SUPABASE_JWT_SECRET := None; GEMINI_API_KEY := None;
               GOOGLE_API_KEY := None |};
     supabase := Some store |}.

(** A request of U1 for the receipt [rid]. *)
Definition request_of_U1 (rid : jsstring) : Request :=
  {| headers := {[ Js.lit "authorization" := Js.lit "Bearer token-of-U1" ]};
     params_id := Some rid |}.

(** A request without credentials. *)
Definition anonymous (rid : jsstring) : Request :=
  {| headers := ∅; params_id := Some rid |}.

(** An upload whose bytes the sample model echoes as its answer. *)
Definition upload (text : jsstring) : Upload :=
  {| mimetype := None; file := [text]; file_error := None |}.





End Sample.

(** The server [srv] connected to the store [st]. *)
Definition with_store (srv : Server) (st : Store) : Server :=
  {| host := host srv; env := env srv; supabase := Some st |}.

(** * Reading the export back

    A reader of CSV text, independent of the code: fields are separated by
    commas and records by line feeds; a field that opens with a double quote
    runs to its closing quote, a doubled quote inside standing for one
    quote. *)

Module CsvReader.

Inductive state :=
| FieldStart   (* at the start of a field *)
| Plain        (* inside a field that is not quoted *)
| Quoted       (* inside a quoted field *)
| QuoteSeen.   (* after a quote inside a quoted field *)

(** [read st s f row rows]: read the text [s] in state [st]; [f] is the
    current field, [row] the fields of the current record and [rows] the
    records read so far, each latest first.  A quote inside a plain field, a
    quoted field that is not closed and text after a closing quote are
    refused. *)
Fixpoint read (st : state) (s f : jsstring) (row : list jsstring)
    (rows : list (list jsstring)) : option (list (list jsstring)) :=
  match s with
  | [] =>
      match st with
      | Quoted => None
      | _ => Some (rev (rev (rev f :: row) :: rows))
      end
  | c :: s' =>
      match st with
      | Quoted =>
          if (c =? 34)%N then read QuoteSeen s' f row rows
          else read Quoted s' (c :: f) row rows
      | _ =>
          if (c =? 44)%N then read FieldStart s' [] (rev f :: row) rows
          else if (c =? 10)%N
          then read FieldStart s' [] [] (rev (rev f :: row) :: rows)
          else if (c =? 34)%N then
            match st with
            | FieldStart => read Quoted s' [] row rows
            | QuoteSeen => read Quoted s' (c :: f) row rows
            | _ => None
            end
          else
            match st with
            | QuoteSeen => None
            | _ => read Plain s' (c :: f) row rows
            end
      end
  end.

(** The records of a CSV text, each a list of fields. *)
Definition read_csv (s : jsstring) : option (list (list jsstring)) :=
  read FieldStart s [] [] [].

End CsvReader.

(** The text of a cell: nothing for [null] and [undefined], otherwise the
    string of the value. *)
Definition cell_text (v : value) : jsstring :=
  match v with
  | VNull | VUndefined => []
  | _ => String_ v
  end.

(** The table an export shows: the texts of the cells of each line. *)
Definition receipt_table (h : Host) (data : Receipt) : list (list jsstring) :=
  [[Js.lit "Merchant"; cell_text (merchant data)];
   [Js.lit "Purchase Date"; formatDate h (purchase_at data)];
   [Js.lit "Total"; formatNumber (total data)];
   [Js.lit "Currency"; cell_text (currency data)];
   [Js.lit "Category"; cell_text (category data)];
   [Js.lit "Receipt ID"; id data];
   [[]];
   [Js.lit "Items"];
   [Js.lit "Name"; Js.lit "Quantity"; Js.lit "Price"]]
  ++ List.map (fun item => [cell_text (name item); cell_text (quantity item);
                            formatNumber (price item)])
       (match receipt_items data with Some l => l | None => [] end).

(** A line of fields as the export writes one: each field through
    [csvEscape], joined by commas. *)
Definition line_of (fields : list jsstring) : jsstring :=
  Js.join [Js.COMMA] (List.map (fun f => csvEscape (VStr f)) fields).

(** A text of lines as the export writes one: joined by line feeds. *)
Definition text_of (rows : list (list jsstring)) : jsstring :=
  Js.join [Js.LF] (List.map line_of rows).

(** The text is at a separator or at its end. *)
Definition at_delimiter (rest : jsstring) : Prop :=
  match rest with
  | [] => True
  | c :: _ => c = Js.COMMA \/ c = Js.LF
  end.

(** A hexadecimal digit. *)
Definition is_hex (c : N) : Prop := In c (Js.lit "0123456789abcdefABCDEF").

(** A UUID in its usual writing: groups of 8, 4, 4, 4 and 12 hexadecimal
    digits separated by hyphens. *)
Definition is_uuid (s : jsstring) : Prop :=
  exists a b c d e : jsstring,
    s = a ++ Js.lit "-" ++ b ++ Js.lit "-" ++ c ++ Js.lit "-" ++ d
        ++ Js.lit "-" ++ e
    /\ length a = 8%nat /\ length b = 4%nat /\ length c = 4%nat
    /\ length d = 4%nat /\ length e = 12%nat
    /\ Forall is_hex (a ++ b ++ c ++ d ++ e).

(** [c] occurs in [s] as a contiguous part. *)
Definition part_of (c s : jsstring) : Prop :=
  exists pre post : jsstring, s = pre ++ c ++ post.

(** The rows of a store that belong to the user [u]. *)
Definition rows_of (u : jsstring) (st : Store) : list Receipt :=
  List.filter (fun r => Js.eqb (user_id r) u) (receipts st).

(** More sample data. *)
Module Sample2.

(** The sample store while it is failing. *)
Definition failing_store : Store :=
  {| receipts := receipts Sample.store; fault := Some (Js.lit "connection refused") |}.

(** A third receipt, of U2, next to the sample ones. *)
Definition receipt3 : Receipt := {|
  id := Sample.id3; user_id := Js.lit "U2";
  merchant := VStr (Js.lit "Taxi"); purchase_at := VNull;
  total := VNum (Num.of_Z 20); currency := VNull; category := VNull;
  receipt_items := None
|}.

(** The sample store with one more receipt of U2. *)
Definition larger_store : Store :=
  {| receipts := [receipt3; Sample.receipt1; Sample.receipt2]; fault := None |}.

(** A request of U1 whose header has white space around the token. *)
Definition padded_request (rid : jsstring) : Request :=
  {| headers := {[ Js.lit "authorization" := Js.lit "Bearer   token-of-U1  " ]};
     params_id := Some rid |}.

(** A receipt whose cells hold commas, quotes and line feeds. *)
Definition awkward : Receipt := {|
  id := Sample.id1; user_id := Js.lit "U1";
  merchant := VStr (Js.lit "Smith, Jones" ++ [Js.LF; Js.DQUOTE] ++ Js.lit "Co"
                    ++ [Js.DQUOTE]);
  purchase_at := VStr (Js.lit "2024-03-05");
  total := VStr (Js.lit "12");
  currency := VNull; category := VBool true;
  receipt_items :=
    Some [{| name := VStr [Js.DQUOTE]; quantity := VNum (Num.of_Z 3);
             price := VNull |}]
|}.

(** A receipt whose date and total cannot be read. *)
Definition unreadable : Receipt := {|
  id := Sample.id3; user_id := Js.lit "U1";
  merchant := VStr (Js.lit "Kiosk");
  purchase_at := VStr (Js.lit "yesterday");
  total := VStr (Js.lit "twelve");
  currency := VNull; category := VNull;
  receipt_items :=
    Some [{| name := VStr (Js.lit "Gum"); quantity := VUndefined;
             price := VStr (Js.lit "n/a") |}]
|}.

(** The error of [req.file()] on a request that is not multipart. *)
Definition not_multipart : JsError :=
  {| error_message := Js.lit "the request is not multipart";
     error_statusCode := Some 406 |}.

(** An upload whose stream breaks after its first chunk. *)
Definition broken_upload : Upload :=
  {| mimetype := Some (Js.lit "image/png"); file := [Js.lit "abc"];
     file_error :=
       Some {| error_message := Js.lit "aborted"; error_statusCode := None |} |}.

End Sample2.

(** * Theorems *)

(** Case analysis on the comparisons of code units in the goal. *)
Ltac case_N_tests :=
  repeat match goal with
         | |- context [(?u <=? ?v)%N] => destruct (N.leb_spec u v)
         end; cbn [andb];
  repeat match goal with
         | |- context [(?u =? ?v)%N] => destruct (N.eqb_spec u v)
         end.

(** Case analysis on the comparisons of integers in the goal. *)
Ltac case_Z_tests :=
  repeat match goal with
         | |- context [?a <=? ?b] => destruct (Z.leb_spec a b)
         | |- context [?a <? ?b] => destruct (Z.ltb_spec a b)
         | |- context [?a =? ?b] => destruct (Z.eqb_spec a b)
         end.

(** ** The CSV field formatters *)

Section CsvEscape.

Lemma needs_quoting_Exists (s : jsstring) :
  needs_quoting s = true <-> Exists Spec.special s.
Proof.
  unfold needs_quoting, Spec.special.
  rewrite existsb_exists, List.Exists_exists.
  split; intros (c & Hin & Hc); exists c; split; auto.
  - apply orb_true_iff in Hc as [Hc | Hc];
      [apply orb_true_iff in Hc as [Hc | Hc] |];
      apply N.eqb_eq in Hc; tauto.
  - destruct Hc as [-> | [-> | ->]]; reflexivity.
Qed.

Lemma unquote_double_quotes (s : jsstring) :
  Spec.unquote (double_quotes s ++ [Js.DQUOTE]) = Some s.
Proof.
  induction s as [| c s IH]; [reflexivity |].
  cbn [double_quotes flat_map].
  fold (double_quotes s).
  destruct (N.eqb_spec c Js.DQUOTE) as [-> | Hc].
  - change (Spec.unquote (34%N :: 34%N :: (double_quotes s ++ [Js.DQUOTE]))
            = Some (34%N :: s)).
    cbn [Spec.unquote]. rewrite IH. reflexivity.
  - change (Spec.unquote (c :: (double_quotes s ++ [Js.DQUOTE])) = Some (c :: s)).
    assert (Hstep : forall r, Spec.unquote (c :: r)
                              = option_map (cons c) (Spec.unquote r)).
    { intros r. unfold Js.DQUOTE in Hc.
      destruct c as [| p]; [reflexivity |].
      do 6 (destruct p as [p | p |]; try reflexivity).
      contradiction. }
    rewrite Hstep, IH. reflexivity.
Qed.

Lemma parse_field_plain (s : jsstring) :
  needs_quoting s = false -> Spec.parse_field s = Some s.
Proof.
  intros H. unfold Spec.parse_field.
  assert (Hex : existsb (fun c => (c =? 34) || (c =? 44) || (c =? 10))%N s = false)
    by exact H.
  destruct s as [| c r]; [reflexivity |].
  rewrite Hex.
  destruct (N.eqb_spec c 34) as [-> | Hc].
  - cbn in H. discriminate.
  - destruct c as [| p]; [reflexivity |].
    do 6 (destruct p as [p | p |]; try reflexivity).
    contradiction.
Qed.

(** C7. Reading [csvEscape(s)] back as a single CSV field yields [s], for
    every string [s]; the value is wrapped in double quotes, with the inner
    double quotes doubled, exactly when [s] holds a double quote, a comma or
    a line feed, and is left as it is otherwise; [null] and [undefined]
    become the empty string. *)
Theorem csvEscape_roundtrip (s : jsstring) :
  Spec.parse_field (csvEscape (VStr s)) = Some s
  /\ (csvEscape (VStr s) = [Js.DQUOTE] ++ double_quotes s ++ [Js.DQUOTE]
      <-> Exists Spec.special s)
  /\ (csvEscape (VStr s) = s <-> ~ Exists Spec.special s)
  /\ csvEscape VNull = [] /\ csvEscape VUndefined = [].
Proof.
  assert (Hlen : forall t : jsstring, (length t <= length (double_quotes t))%nat).
  { induction t as [| c t IH]; [reflexivity |].
    cbn [double_quotes flat_map]. fold (double_quotes t).
    destruct (c =? Js.DQUOTE)%N; cbn [length app]; lia. }
  assert (Hne : [Js.DQUOTE] ++ double_quotes s ++ [Js.DQUOTE] <> s).
  { intros E. apply (f_equal (@length N)) in E.
    cbn [length app] in E. rewrite length_app in E. cbn [length] in E.
    specialize (Hlen s). lia. }
  unfold csvEscape. cbn [String_].
  rewrite <- needs_quoting_Exists.
  destruct (needs_quoting s) eqn:Hq.
  - repeat split; auto; try congruence.
    cbn [app Spec.parse_field]. apply unquote_double_quotes.
  - repeat split; auto; try congruence.
    apply parse_field_plain. exact Hq.
Qed.

End CsvEscape.

Section FormatNumber.
Import Num.

Lemma isDigit_digit (d : Z) : d < 10 -> isDigit (digit d) = true.
Proof.
  intros H. unfold isDigit, digit.
  apply andb_true_iff. split; apply N.leb_le; lia.
Qed.

Lemma digits_aux_all (fuel : nat) :
  forall n acc, forallb isDigit acc = true ->
                forallb isDigit (digits_aux fuel n acc) = true.
Proof.
  assert (Hmod : forall n, isDigit (digit (n mod 10)) = true).
  { intros n. apply isDigit_digit.
    pose proof (Z.mod_pos_bound n 10). lia. }
  induction fuel as [| f IH]; intros n acc Hacc; cbn [digits_aux].
  - cbn [forallb]. rewrite Hmod, Hacc. reflexivity.
  - destruct (Z.ltb_spec n 10).
    + cbn [forallb]. rewrite isDigit_digit, Hacc by assumption. reflexivity.
    + apply IH. cbn [forallb]. rewrite Hmod, Hacc. reflexivity.
Qed.

Lemma digits_aux_length (fuel : nat) :
  forall n acc, (length acc < length (digits_aux fuel n acc))%nat.
Proof.
  induction fuel as [| f IH]; intros n acc; cbn [digits_aux].
  - cbn [length]. lia.
  - destruct (n <? 10).
    + cbn [length]. lia.
    + specialize (IH (n / 10) (digit (n mod 10) :: acc)).
      cbn [length] in IH. lia.
Qed.

Lemma digits_all (n : Z) : forallb isDigit (digits n) = true.
Proof. apply digits_aux_all. reflexivity. Qed.

Lemma digits_nonempty (n : Z) : (0 < length (digits n))%nat.
Proof. apply (digits_aux_length _ n []). Qed.

Lemma zeros_all (k : nat) : forallb isDigit (zeros k) = true.
Proof. induction k as [| k IH]; [reflexivity | exact IH]. Qed.

Lemma forallb_rev_true {A : Type} (p : A -> bool) (l : list A) :
  forallb p l = true -> forallb p (rev l) = true.
Proof.
  rewrite !forallb_forall. intros H x Hin. apply H, in_rev, Hin.
Qed.

(** One or more digits, a point and two digits, after an optional minus
    sign, make a rendering with two decimals. *)
Lemma two_decimals_intro (neg : bool) (ds : jsstring) :
  forallb isDigit ds = true -> (3 <= length ds)%nat ->
  Spec.two_decimals
    ((if neg then Js.lit "-" else [])
     ++ firstn (length ds - 2) ds ++ Js.lit "." ++ skipn (length ds - 2) ds)
  = true.
Proof.
  intros Hall Hlen.
  set (int := firstn (length ds - 2) ds).
  set (frac := skipn (length ds - 2) ds).
  assert (Hint : (0 < length int)%nat).
  { unfold int. rewrite length_firstn. lia. }
  assert (Hfrac : length frac = 2%nat).
  { unfold frac. rewrite length_skipn. lia. }
  assert (Hds : forallb isDigit int = true /\ forallb isDigit frac = true).
  { apply andb_true_iff. rewrite <- forallb_app.
    unfold int, frac. rewrite firstn_skipn. exact Hall. }
  destruct Hds as [Hi Hf].
  destruct frac as [| d1 [| d2 [| ? ?]]]; try discriminate.
  cbn [forallb] in Hf.
  apply andb_true_iff in Hf as [Hd1 Hf]. apply andb_true_iff in Hf as [Hd2 _].
  assert (Hstrip : Spec.unsigned ((if neg then Js.lit "-" else [])
                                  ++ int ++ Js.lit "." ++ [d1; d2])
                   = int ++ Js.lit "." ++ [d1; d2]).
  { destruct neg; [reflexivity |].
    destruct int as [| c int']; [cbn in Hint; lia |].
    cbn [forallb] in Hi. apply andb_true_iff in Hi as [Hc _].
    cbn [app]. unfold isDigit in Hc.
    apply andb_true_iff in Hc as [Hc _]. apply N.leb_le in Hc.
    destruct (N.eqb_spec c 45) as [-> | Hne]; [lia |].
    destruct c as [| q]; [reflexivity |].
    do 6 (destruct q as [q | q |]; try reflexivity). contradiction. }
  unfold Spec.two_decimals. rewrite Hstrip.
  rewrite rev_app_distr. cbn [Js.lit list_ascii_of_string List.map rev app].
  change (N_of_ascii ".") with 46%N. cbn [app].
  rewrite Hd1, Hd2. cbn [andb].
  rewrite (forallb_rev_true _ _ Hi).
  destruct (rev int) eqn:Hr; [| reflexivity].
  apply (f_equal (@length N)) in Hr. rewrite length_rev in Hr.
  cbn in Hr. lia.
Qed.

(** Below [10^21] a finite Number is rendered with two decimals. *)
Lemma toFixed_two_decimals (s : bool) (m : positive) (e : Z) :
  (let '(a, b) := ratio_of m e in a <? 10 ^ 21 * b) = true ->
  Spec.two_decimals (toFixed (S754_finite s m e) 2) = true.
Proof.
  unfold toFixed. destruct (ratio_of m e) as [a b].
  intros H. apply Z.ltb_lt in H.
  destruct (Z.leb_spec (10 ^ 21 * b) a) as [Hle | _]; [lia |].
  cbn [Nat.eqb].
  set (ds := zeros _ ++ digits _).
  apply two_decimals_intro.
  - unfold ds. rewrite forallb_app, zeros_all, digits_all. reflexivity.
  - unfold ds. rewrite length_app. unfold zeros. rewrite repeat_length.
    pose proof (digits_nonempty ((2 * a * 10 ^ Z.of_nat 2 + b) / (2 * b))).
    lia.
Qed.

(** What [formatNumber] can return: nothing, two decimals, or the plain
    rendering of a Number that is infinite or at least [10^21] in
    magnitude. *)
Lemma formatNumber_cases (n : value) :
  formatNumber n = []
  \/ Spec.two_decimals (formatNumber n) = true
  \/ (Spec.beyond_fixed (Number_ n) = true
      /\ formatNumber n = toString (Number_ n)).
Proof.
  unfold formatNumber.
  assert (H : forall x, (if isNaN x then [] else toFixed x 2) = []
                        \/ Spec.two_decimals (if isNaN x then [] else toFixed x 2) = true
                        \/ (Spec.beyond_fixed x = true
                            /\ (if isNaN x then [] else toFixed x 2) = toString x)).
  { intros [sg | sg | | sg m e]; cbn [isNaN]; auto.
    unfold Spec.beyond_fixed.
    destruct (let '(a, b) := ratio_of m e in 10 ^ 21 * b <=? a) eqn:Hge.
    - right. right. split; [reflexivity |].
      unfold toFixed. destruct (ratio_of m e) as [a b].
      rewrite Hge. reflexivity.
    - right. left. apply toFixed_two_decimals.
      destruct (ratio_of m e) as [a b].
      apply Z.leb_gt in Hge. apply Z.ltb_lt. exact Hge. }
  destruct n as [| | b | x | [| c s]]; auto; apply H.
Qed.

(** C4. [formatNumber] maps [null] to the empty string, the string [12] to
    [12.00], the string [abc] to the empty string and the number [12.345] to
    [12.35]; that number is the binary64 value nearest to 12.345. *)
Theorem formatNumber_examples :
  formatNumber VNull = []
  /\ formatNumber (VStr (Js.lit "12")) = Js.lit "12.00"
  /\ formatNumber (VStr (Js.lit "abc")) = []
  /\ formatNumber (VNum Spec.n12_345) = Js.lit "12.35"
  /\ round_ratio false 12345 1000 = Spec.n12_345
  /\ StrNum.StringToNumber (Js.lit "12.345") = Spec.n12_345.
Proof. repeat split; vm_compute; reflexivity. Qed.

(** C5, at the inputs where it fails: the numbers [1e21] and [Infinity],
    and the strings that denote them, are rendered in full, which is neither
    empty nor a rendering with two decimals. *)
Theorem formatNumber_beyond_two_decimals :
  formatNumber (VNum Spec.n1e21) = Js.lit "1e+21"
  /\ formatNumber (VNum Infinity) = Js.lit "Infinity"
  /\ formatNumber (VStr (Js.lit "1e21")) = Js.lit "1e+21"
  /\ formatNumber (VStr (Js.lit "-Infinity")) = Js.lit "-Infinity"
  /\ Spec.two_decimals (Js.lit "1e+21") = false
  /\ Spec.two_decimals (Js.lit "Infinity") = false
  /\ Spec.two_decimals (Js.lit "-Infinity") = false
  /\ of_Z (10 ^ 21) = Spec.n1e21.
Proof. repeat split; vm_compute; reflexivity. Qed.

End FormatNumber.

(** ** Dates *)

Section Dates.
Import Num Date.

Lemma DayFromYear_succ (y : Z) :
  DayFromYear (y + 1) = DayFromYear y + (if isLeapYear y then 366 else 365).
Proof.
  unfold DayFromYear, isLeapYear.
  destruct (Z.eqb_spec (y mod 4) 0), (Z.eqb_spec (y mod 100) 0),
    (Z.eqb_spec (y mod 400) 0); cbn [negb andb orb];
    Z.div_mod_to_equations; lia.
Qed.

Lemma DayFromYear_estimate (d : Z) :
  let y0 := 1970 + d * 400 / 146097 in
  DayFromYear (y0 - 2) <= d < DayFromYear (y0 + 3).
Proof.
  cbv zeta. unfold DayFromYear. Z.div_mod_to_equations. lia.
Qed.

(** The year of a day: the year that starts on or before it and whose
    successor starts after it. *)
Lemma YearFromDay_spec (d : Z) :
  DayFromYear (YearFromDay d) <= d < DayFromYear (YearFromDay d + 1).
Proof.
  pose proof (DayFromYear_estimate d) as He. cbv zeta in He.
  unfold YearFromDay. set (y0 := 1970 + d * 400 / 146097) in *.
  pose proof (DayFromYear_succ (y0 - 2)) as S1.
  pose proof (DayFromYear_succ (y0 - 1)) as S2.
  pose proof (DayFromYear_succ y0) as S3.
  pose proof (DayFromYear_succ (y0 + 1)) as S4.
  pose proof (DayFromYear_succ (y0 + 2)) as S5.
  replace (y0 - 2 + 1) with (y0 - 1) in S1 by lia.
  replace (y0 - 1 + 1) with y0 in S2 by lia.
  replace (y0 + 1 + 1) with (y0 + 2) in S4 by lia.
  replace (y0 + 2 + 1) with (y0 + 3) in S5 by lia.
  cbn [year_down year_up].
  repeat match goal with
         | |- context [if ?a <=? ?b then _ else _] => destruct (Z.leb_spec a b)
         | |- context [if ?a <? ?b then _ else _] => destruct (Z.ltb_spec a b)
         | |- context [?a - 1 - 1] => replace (a - 1 - 1) with (a - 2) in * by lia
         | |- context [?a - 1 + 1] => replace (a - 1 + 1) with a in * by lia
         | |- context [?a - 2 + 1] => replace (a - 2 + 1) with (a - 1) in * by lia
         | |- context [?a + 1 + 1] => replace (a + 1 + 1) with (a + 2) in * by lia
         | |- context [?a + 2 + 1] => replace (a + 2 + 1) with (a + 3) in * by lia
         end; try lia.
Qed.

Lemma DayWithinYear_bounds (t : Z) :
  0 <= DayWithinYear t < (if isLeapYear (YearFromTime t) then 366 else 365).
Proof.
  unfold DayWithinYear, YearFromTime.
  pose proof (YearFromDay_spec (Day t)) as H.
  rewrite DayFromYear_succ in H. lia.
Qed.

Lemma MonthFromTime_bounds (t : Z) : 0 <= MonthFromTime t <= 11.
Proof.
  unfold MonthFromTime, month_of.
  generalize (DayWithinYear t) as dy. intros dy.
  cbn [find].
  repeat match goal with
         | |- context [if ?c then _ else _] => destruct c
         end; lia.
Qed.

Lemma DateFromTime_bounds (t : Z) : 1 <= DateFromTime t <= 31.
Proof.
  unfold DateFromTime, MonthFromTime, month_of.
  pose proof (DayWithinYear_bounds t) as H. revert H.
  generalize (DayWithinYear t) as dy. intros dy H.
  destruct (isLeapYear (YearFromTime t));
    cbn [find month_start Z.add Pos.add Pos.succ] in *;
    repeat match goal with
           | |- context [if ?a <? ?b then _ else _] => destruct (Z.ltb_spec a b)
           end;
    repeat match goal with
           | H : context [month_start ?b (?m + 1)] |- _ =>
               let v := eval vm_compute in (month_start b (m + 1)) in
               change (month_start b (m + 1)) with v in H
           | |- context [month_start ?b ?m] =>
               let v := eval vm_compute in (month_start b m) in
               change (month_start b m) with v
           end; lia.
Qed.

(** A number below [10^k] is written with at most [k] digits. *)
Lemma digits_aux_short (fuel : nat) :
  forall (k : nat) n acc,
    n < 10 ^ Z.of_nat (S k) ->
    (length (digits_aux fuel n acc) <= S k + length acc)%nat.
Proof.
  induction fuel as [| f IH]; intros k n acc Hn; cbn [digits_aux].
  - cbn [length]. lia.
  - destruct (Z.ltb_spec n 10) as [Hlt | Hge].
    + cbn [length]. lia.
    + destruct k as [| k].
      * change (10 ^ Z.of_nat 1) with 10 in Hn. lia.
      * assert (Hdiv : n / 10 < 10 ^ Z.of_nat (S k)).
        { apply Z.div_lt_upper_bound; [lia |].
          replace (Z.of_nat (S (S k))) with (Z.succ (Z.of_nat (S k))) in Hn by lia.
          rewrite Z.pow_succ_r in Hn by lia. exact Hn. }
        specialize (IH k (n / 10) (digit (n mod 10) :: acc) Hdiv).
        cbn [length] in IH. lia.
Qed.

Lemma pad_length (w : nat) (n : Z) :
  n < 10 ^ Z.of_nat w -> (0 < w)%nat -> length (pad w n) = w.
Proof.
  intros Hn Hw. unfold pad. rewrite length_app.
  unfold zeros. rewrite repeat_length.
  destruct w as [| k]; [lia |].
  pose proof (digits_aux_short (Z.to_nat (Z.log2 n)) k n [] Hn) as Hlen.
  change (digits_aux (Z.to_nat (Z.log2 n)) n []) with (digits n) in Hlen.
  cbn [length] in Hlen. lia.
Qed.

Lemma pad_all (w : nat) (n : Z) : forallb isDigit (pad w n) = true.
Proof.
  unfold pad. rewrite forallb_app, zeros_all, digits_all. reflexivity.
Qed.

(** Within the years 0 to 9999 the date part of [toISOString] is written
    [YYYY-MM-DD]. *)
Lemma isoDate_yyyy_mm_dd (t : Z) :
  0 <= YearFromTime t <= 9999 -> Spec.yyyy_mm_dd (isoDate t) = true.
Proof.
  intros Hy. unfold isoDate.
  destruct (Z.leb_spec 0 (YearFromTime t)); [| lia].
  destruct (Z.leb_spec (YearFromTime t) 9999); [| lia].
  cbn [andb].
  pose proof (MonthFromTime_bounds t) as Hm.
  pose proof (DateFromTime_bounds t) as Hd.
  assert (L4 : length (pad 4 (YearFromTime t)) = 4%nat).
  { apply pad_length; [change (10 ^ Z.of_nat 4) with 10000 |]; lia. }
  assert (L2 : length (pad 2 (MonthFromTime t + 1)) = 2%nat).
  { apply pad_length; [change (10 ^ Z.of_nat 2) with 100 |]; lia. }
  assert (L2' : length (pad 2 (DateFromTime t)) = 2%nat).
  { apply pad_length; [change (10 ^ Z.of_nat 2) with 100 |]; lia. }
  pose proof (pad_all 4 (YearFromTime t)) as A4.
  pose proof (pad_all 2 (MonthFromTime t + 1)) as A2.
  pose proof (pad_all 2 (DateFromTime t)) as A2'.
  destruct (pad 4 (YearFromTime t)) as [| y1 [| y2 [| y3 [| y4 [| ? ?]]]]];
    try discriminate.
  destruct (pad 2 (MonthFromTime t + 1)) as [| m1 [| m2 [| ? ?]]];
    try discriminate.
  destruct (pad 2 (DateFromTime t)) as [| d1 [| d2 [| ? ?]]];
    try discriminate.
  cbn [forallb] in A4, A2, A2'.
  repeat match goal with
         | H : _ && _ = true |- _ => apply andb_true_iff in H as [? ?]
         end.
  cbn [app Js.lit list_ascii_of_string List.map Spec.yyyy_mm_dd forallb].
  repeat match goal with
         | H : isDigit _ = true |- _ => rewrite H; clear H
         end.
  reflexivity.
Qed.

(** The text before the first separator of [a ++ sep :: b] is [a] when [a]
    holds no separator. *)
Lemma split_head_app (sep : N) (a b : jsstring) :
  forallb (fun c => negb (c =? sep)%N) a = true ->
  split_head sep (a ++ sep :: b) = a.
Proof.
  induction a as [| c a IH]; cbn [forallb app split_head]; intros H.
  - rewrite N.eqb_refl. reflexivity.
  - apply andb_true_iff in H as [Hc Ha].
    apply negb_true_iff in Hc. rewrite Hc, IH by exact Ha. reflexivity.
Qed.

Lemma isDigit_not_T (s : jsstring) :
  forallb isDigit s = true -> forallb (fun c => negb (c =? 84)%N) s = true.
Proof.
  rewrite !forallb_forall. intros H c Hin. specialize (H c Hin).
  unfold isDigit in H. apply andb_true_iff in H as [_ H].
  apply N.leb_le in H. apply negb_true_iff, N.eqb_neq. lia.
Qed.

Lemma isoDate_no_T (t : Z) :
  forallb (fun c => negb (c =? 84)%N) (isoDate t) = true.
Proof.
  unfold isoDate.
  repeat rewrite forallb_app.
  rewrite !(isDigit_not_T _ (pad_all _ _)).
  destruct ((0 <=? YearFromTime t) && (YearFromTime t <=? 9999)).
  - rewrite (isDigit_not_T _ (pad_all _ _)). reflexivity.
  - rewrite forallb_app, (isDigit_not_T _ (pad_all _ _)).
    destruct (YearFromTime t <? 0); reflexivity.
Qed.

(** The day number of the calendar date read off a time value is the day
    of that time value. *)
Lemma MakeDay_of_time (t : Z) :
  MakeDay (YearFromTime t) (MonthFromTime t) (DateFromTime t) = Day t.
Proof. unfold MakeDay, DateFromTime, DayWithinYear. lia. Qed.

Variable h : Host.

(** On an input that makes a valid Date, [formatDate] returns the date part
    of its ISO rendering: the time of day is dropped. *)
Lemma formatDate_valid (d : value) (t : Z) :
  truthy d = true -> Date.new h d = Some t -> formatDate h d = isoDate t.
Proof.
  intros Ht Hnew. unfold formatDate. rewrite Ht, Hnew. cbn [negb].
  unfold toISOString.
  change (Js.lit "T" ++ isoTime t ++ Js.lit "Z")
    with (84%N :: (isoTime t ++ Js.lit "Z")).
  apply split_head_app, isoDate_no_T.
Qed.

(** Falsy and unparseable inputs give the empty string. *)
Lemma formatDate_empty (d : value) :
  truthy d = false \/ Date.new h d = None -> formatDate h d = [].
Proof.
  unfold formatDate. intros [-> | H]; [reflexivity |].
  rewrite H. destruct (negb (truthy d)); reflexivity.
Qed.

(** Within the years 0 to 9999, the result is the UTC calendar date of the
    time value, written [YYYY-MM-DD]. *)
Lemma formatDate_in_range (d : value) (t : Z) :
  truthy d = true -> Date.new h d = Some t -> 0 <= YearFromTime t <= 9999 ->
  formatDate h d = isoDate t /\ Spec.yyyy_mm_dd (formatDate h d) = true.
Proof.
  intros Ht Hnew Hy. rewrite (formatDate_valid d t Ht Hnew).
  split; [reflexivity | apply isoDate_yyyy_mm_dd, Hy].
Qed.

(** The documented examples of [formatDate]. *)
Lemma formatDate_examples :
  formatDate h VNull = []
  /\ formatDate h (VStr []) = []
  /\ formatDate h (VStr (Js.lit "2024-03-05T10:00:00Z")) = Js.lit "2024-03-05"
  /\ (date_parse_fallback h (Js.lit "not-a-date") = None ->
      formatDate h (VStr (Js.lit "not-a-date")) = []).
Proof.
  split; [reflexivity |]. split; [reflexivity |].
  split; [vm_compute; reflexivity |].
  intros Hf. apply formatDate_empty. right.
  unfold Date.new, Date.parse.
  replace (read_fields (Js.lit "not-a-date")) with (@None fields)
    by (vm_compute; reflexivity).
  rewrite Hf. reflexivity.
Qed.

(** C6, at an input where it fails: a date-time string in the expanded-year
    form of the Date Time String Format is parseable on every host, and its
    date is written with a sign and six digits for the year, which is not
    [YYYY-MM-DD].  Within the years 0 to 9999 the result is [YYYY-MM-DD]
    ([isoDate_yyyy_mm_dd]). *)
Theorem formatDate_expanded_year :
  Date.new h (VStr (Js.lit "+010000-01-01T00:00:00Z")) = Some 253402300800000
  /\ formatDate h (VStr (Js.lit "+010000-01-01T00:00:00Z")) = Js.lit "+010000-01-01"
  /\ Spec.yyyy_mm_dd (Js.lit "+010000-01-01") = false
  /\ formatDate h (VStr (Js.lit "-000001-12-31T00:00:00Z")) = Js.lit "-000001-12-31".
Proof. repeat split; vm_compute; reflexivity. Qed.

End Dates.

(** ** The export endpoint *)

Section ExportEndpoint.

Lemma isIdChar_hex_or_hyphen (c : N) :
  isIdChar c = true <-> Spec.hex_or_hyphen c.
Proof.
  unfold Spec.hex_or_hyphen. split.
  - intros H.
    destruct c as [| p]; [discriminate |].
    do 7 (try (destruct p as [p | p |]));
      vm_compute in H; try discriminate H; vm_compute; tauto.
  - intros H. vm_compute in H.
    repeat destruct H as [<- | H]; try reflexivity. contradiction.
Qed.

(** The id pattern accepts exactly the identifiers the specification calls
    syntactically valid. *)
Lemma id_pattern_test_spec (s : jsstring) :
  id_pattern_test s = false <-> Spec.invalid_id (Some s).
Proof.
  unfold id_pattern_test, Spec.invalid_id. split.
  - intros H.
    destruct (Nat.leb_spec 32 (length s)); [| left; lia].
    destruct (Nat.leb_spec (length s) 36); [| right; left; lia].
    right. right. cbn [andb] in H.
    induction s as [| c s IH]; [discriminate |].
    cbn [forallb] in H. destruct (isIdChar c) eqn:Hc.
    + cbn [andb] in H.
      assert (Hs : exists c', In c' s /\ ~ Spec.hex_or_hyphen c').
      { clear IH H0 H1. induction s as [| d s IHs]; [discriminate |].
        cbn [forallb] in H. destruct (isIdChar d) eqn:Hd.
        - destruct (IHs H) as (c' & Hin & Hn). exists c'. split; [right |]; auto.
        - exists d. split; [left; reflexivity |].
          rewrite <- isIdChar_hex_or_hyphen. congruence. }
      destruct Hs as (c' & Hin & Hn). exists c'. split; [right |]; auto.
    + exists c. split; [left; reflexivity |].
      rewrite <- isIdChar_hex_or_hyphen. congruence.
  - intros [H | [H | (c & Hin & Hn)]].
    + destruct (Nat.leb_spec 32 (length s)); [lia | reflexivity].
    + destruct (Nat.leb_spec (length s) 36); [lia |].
      rewrite andb_false_r. reflexivity.
    + destruct (forallb isIdChar s) eqn:Hall.
      * rewrite forallb_forall in Hall. specialize (Hall c Hin).
        apply isIdChar_hex_or_hyphen in Hall. contradiction.
      * apply andb_false_r.
Qed.

Lemma authenticate_bearer (srv : Server) (request : Request) :
  has_bearer request = false ->
  authenticate srv request
  = inl (send_error 401 "Missing Authorization Bearer token").
Proof.
  unfold has_bearer, authenticate.
  destruct (auth_header request) as [auth |]; [| reflexivity].
  intros ->. rewrite orb_true_r. reflexivity.
Qed.

(** Without a Bearer header the endpoint answers 401 and sends no query. *)
Lemma export_without_bearer (srv : Server) (request : Request) :
  has_bearer request = false ->
  export_csv srv request
  = (send_error 401 "Missing Authorization Bearer token", []).
Proof.
  intros H. unfold export_csv. rewrite (authenticate_bearer srv request H).
  reflexivity.
Qed.

(** C8. The export endpoint does not touch the store before both gates
    pass: a request whose Authorization header is absent or does not begin
    with [Bearer ] is answered 401 with no query sent; an authenticated
    request whose id is syntactically invalid is answered 400 with no query
    sent; and whenever a query was sent, the request was authenticated and
    its id was valid. *)
Theorem export_gates_before_store (srv : Server) (request : Request) :
  (has_bearer request = false ->
   export_csv srv request
   = (send_error 401 "Missing Authorization Bearer token", []))
  /\ (forall u, authenticate srv request = inr u ->
                Spec.invalid_id (params_id request) ->
                export_csv srv request
                = (send_error 400 "Invalid receipt id format", []))
  /\ (snd (export_csv srv request) <> [] ->
      exists u rid,
        authenticate srv request = inr u /\ params_id request = Some rid
        /\ ~ Spec.invalid_id (Some rid)
        /\ snd (export_csv srv request) = [{| q_id := rid; q_user_id := u |}]).
Proof.
  split; [| split].
  - apply export_without_bearer.
  - intros u Hu Hbad. unfold export_csv. rewrite Hu.
    destruct (params_id request) as [rid |]; [| reflexivity].
    apply id_pattern_test_spec in Hbad. rewrite Hbad.
    rewrite orb_true_r. reflexivity.
  - unfold export_csv.
    destruct (authenticate srv request) as [sent | u]; [cbn; congruence |].
    destruct (params_id request) as [rid |]; [| cbn; congruence].
    destruct (id_pattern_test rid) eqn:Hid;
      [| rewrite orb_true_r; cbn; congruence].
    destruct (negb (Js.truthy rid)); [cbn; congruence |]. cbn [orb negb].
    destruct (supabase srv) as [client |]; [| cbn; congruence].
    intros _. exists u, rid. repeat split.
    + rewrite <- id_pattern_test_spec. congruence.
    + cbv zeta.
      repeat match goal with
             | |- context [match ?x with _ => _ end] => destruct x
             end; reflexivity.
Qed.

(** The theorem at work: an anonymous request, and a request of U1 with a
    malformed id, are turned away without a query. *)
Lemma export_gates_before_store_witness :
  export_csv Sample.server (Sample.anonymous Sample.id1)
  = (send_error 401 "Missing Authorization Bearer token", [])
  /\ export_csv Sample.server (Sample.request_of_U1 (Js.lit "not-a-uuid"))
     = (send_error 400 "Invalid receipt id format", []).
Proof.
  split.
  - apply (proj1 (export_gates_before_store Sample.server
                    (Sample.anonymous Sample.id1))).
    vm_compute. reflexivity.
  - apply (proj1 (proj2 (export_gates_before_store Sample.server
                           (Sample.request_of_U1 (Js.lit "not-a-uuid"))))
             (Js.lit "U1")).
    + vm_compute. reflexivity.
    + left. vm_compute. lia.
Defined.

(** Every 500 of the export endpoint is sent after [authenticate] saw a
    Bearer header. *)
Lemma export_500_has_bearer (srv : Server) (request : Request) :
  status (fst (export_csv srv request)) = 500 -> has_bearer request = true.
Proof.
  destruct (has_bearer request) eqn:Hb; [reflexivity |].
  rewrite (export_without_bearer srv request Hb). cbn. discriminate.
Qed.

(** C10. The credential check comes before the configuration check: a
    request whose Authorization header is absent or lacks the [Bearer ]
    prefix is answered 401, also by a server whose token secret is not
    configured; a 500 is only ever sent to a request that carries a Bearer
    header. *)
Theorem missing_credential_before_misconfiguration
    (srv : Server) (request : Request) :
  (has_bearer request = false ->
   authenticate srv request
   = inl (send_error 401 "Missing Authorization Bearer token")
   /\ fst (export_csv srv request)
      = send_error 401 "Missing Authorization Bearer token")
  /\ (forall r, authenticate srv request = inl r -> status r = 500 ->
                has_bearer request = true)
  /\ (status (fst (export_csv srv request)) = 500 ->
      has_bearer request = true).
Proof.
  split; [| split].
  - intros Hb. split; [apply authenticate_bearer, Hb |].
    rewrite (export_without_bearer srv request Hb). reflexivity.
  - intros r Hr Hs.
    destruct (has_bearer request) eqn:Hb; [reflexivity |].
    rewrite (authenticate_bearer srv request Hb) in Hr.
    injection Hr as <-. cbn in Hs. discriminate.
  - apply export_500_has_bearer.
Qed.

(** The theorem at work on a server without the token secret: an anonymous
    request gets 401, and the 500 goes to a request with a Bearer header. *)
Lemma missing_credential_before_misconfiguration_witness :
  fst (export_csv Sample.server_without_secret (Sample.anonymous Sample.id1))
  = send_error 401 "Missing Authorization Bearer token"
  /\ status (fst (export_csv Sample.server_without_secret
                              (Sample.request_of_U1 Sample.id1))) = 500
  /\ has_bearer (Sample.request_of_U1 Sample.id1) = true.
Proof.
  split; [| split].
  - apply (proj1 (missing_credential_before_misconfiguration
                    Sample.server_without_secret (Sample.anonymous Sample.id1))).
    vm_compute. reflexivity.
  - vm_compute. reflexivity.
  - apply (proj2 (proj2 (missing_credential_before_misconfiguration
                           Sample.server_without_secret
                           (Sample.request_of_U1 Sample.id1)))).
    vm_compute. reflexivity.
Defined.

(** The rows that pass both filters, when no row with the requested id
    belongs to the requesting user. *)
Lemma filter_not_owned (rows : list Receipt) (rid u : jsstring) :
  (forall r, In r rows -> id r = rid -> user_id r <> u) ->
  List.filter (fun r => Js.eqb (id r) rid && Js.eqb (user_id r) u) rows = [].
Proof.
  induction rows as [| r rows IH]; intros H; [reflexivity |].
  cbn [List.filter].
  rewrite IH by (intros r' Hin; apply H; right; exact Hin).
  unfold Js.eqb.
  destruct (bool_decide_reflect (id r = rid)) as [Hid |]; [| reflexivity].
  destruct (bool_decide_reflect (user_id r = u)) as [Hu |]; [| reflexivity].
  exfalso. apply (H r); [left; reflexivity | exact Hid | exact Hu].
Qed.

(** What [authenticate] sends when it fails is a 401 or a 500. *)
Lemma authenticate_reply_status (srv : Server) (request : Request)
    (sent : Response) :
  authenticate srv request = inl sent -> status sent = 401 \/ status sent = 500.
Proof.
  unfold authenticate.
  repeat match goal with
         | |- context [match ?x with _ => _ end] => destruct x
         end;
    intros E; try discriminate; injection E as <-; cbn; auto.
Qed.

(** A receipt is only ever sent to its owner: a 200 carries the CSV of a
    stored row whose id is the requested one and whose owner is the
    authenticated subject. *)
Lemma export_200_owned (srv : Server) (request : Request) :
  status (fst (export_csv srv request)) = 200 ->
  exists u rid st row,
    authenticate srv request = inr u /\ params_id request = Some rid
    /\ supabase srv = Some st /\ In row (receipts st)
    /\ id row = rid /\ user_id row = u
    /\ body (fst (export_csv srv request))
       = BText (buildReceiptCsv (host srv) row).
Proof.
  unfold export_csv.
  destruct (authenticate srv request) as [sent | u] eqn:Hu.
  { cbn [fst].
    destruct (authenticate_reply_status _ _ _ Hu) as [E | E]; rewrite E;
      discriminate. }
  destruct (params_id request) as [rid |]; [| cbn; discriminate].
  destruct (negb (Js.truthy rid) || negb (id_pattern_test rid));
    [cbn; discriminate |].
  destruct (supabase srv) as [st |]; [| cbn; discriminate].
  unfold maybeSingle.
  destruct (fault st); [cbn; discriminate |].
  cbn [q_id q_user_id].
  destruct (List.filter _ (receipts st)) as [| row [| ? ?]] eqn:Hf;
    cbn [error data]; try (cbn; discriminate).
  intros _. exists u, rid, st, row.
  assert (Hin : In row (List.filter
                          (fun r => Js.eqb (id r) rid && Js.eqb (user_id r) u)
                          (receipts st))) by (rewrite Hf; left; reflexivity).
  apply filter_In in Hin as [Hin Hp].
  apply andb_true_iff in Hp as [Hid Huid].
  unfold Js.eqb in Hid, Huid.
  apply bool_decide_eq_true in Hid, Huid.
  repeat split; auto.
Qed.

(** C1. For a request whose credential verifies to [u] and whose id is
    syntactically valid, when every stored record with that id has an
    owner other than [u], the endpoint answers 404; it sends the store one
    query, filtered by id and by owner; and the answer is the one it gives
    when the store holds no record with that id at all. *)
Theorem export_not_owned_is_not_found
    (srv : Server) (request : Request) (u rid : jsstring) (st : Store) :
  authenticate srv request = inr u ->
  params_id request = Some rid ->
  ~ Spec.invalid_id (Some rid) ->
  supabase srv = Some st -> fault st = None ->
  (forall r, In r (receipts st) -> id r = rid -> user_id r <> u) ->
  export_csv srv request
  = (send_error 404 "Receipt not found", [{| q_id := rid; q_user_id := u |}])
  /\ forall st',
      fault st' = None ->
      (forall r, In r (receipts st') -> id r <> rid) ->
      export_csv (with_store srv st') request = export_csv srv request.
Proof.
  intros Hu Hid Hvalid Hst Hfault Howner.
  assert (Htest : id_pattern_test rid = true).
  { destruct (id_pattern_test rid) eqn:E; [reflexivity |].
    exfalso. apply Hvalid, id_pattern_test_spec, E. }
  assert (Htruthy : Js.truthy rid = true).
  { destruct rid; [discriminate Htest | reflexivity]. }
  assert (H404 : forall srv' st',
             authenticate srv' request = inr u ->
             supabase srv' = Some st' -> fault st' = None ->
             (forall r, In r (receipts st') -> id r = rid -> user_id r <> u) ->
             export_csv srv' request
             = (send_error 404 "Receipt not found",
                [{| q_id := rid; q_user_id := u |}])).
  { intros srv' st' Hu' Hst' Hf' Ho'.
    unfold export_csv. rewrite Hu', Hid, Htruthy, Htest, Hst'.
    cbn [negb orb]. unfold maybeSingle. rewrite Hf'.
    cbn [q_id q_user_id]. rewrite (filter_not_owned _ _ _ Ho'). reflexivity. }
  split.
  - apply (H404 srv st); assumption.
  - intros st' Hf' Hnone.
    rewrite (H404 srv st) by assumption.
    apply (H404 (with_store srv st') st'); try assumption; try reflexivity.
    intros r Hin Hr. exfalso. exact (Hnone r Hin Hr).
Qed.

(** The theorem at work: U1 asks for the receipt of U2, and gets the answer
    given for an id that is not in the store. *)
Lemma export_not_owned_is_not_found_witness :
  export_csv Sample.server (Sample.request_of_U1 Sample.id2)
  = (send_error 404 "Receipt not found",
     [{| q_id := Sample.id2; q_user_id := Js.lit "U1" |}])
  /\ fst (export_csv Sample.server (Sample.request_of_U1 Sample.id3))
     = fst (export_csv Sample.server (Sample.request_of_U1 Sample.id2)).
Proof.
  split.
  - apply (proj1 (export_not_owned_is_not_found
                    Sample.server (Sample.request_of_U1 Sample.id2)
                    (Js.lit "U1") Sample.id2 Sample.store
                    ltac:(vm_compute; reflexivity) eq_refl
                    ltac:(rewrite <- id_pattern_test_spec; vm_compute; discriminate)
                    eq_refl eq_refl
                    ltac:(intros r [<- | [<- | []]]; vm_compute; congruence))).
  - vm_compute. reflexivity.
Defined.

End ExportEndpoint.

(** ** The CSV document *)

Section Csv.

Lemma fold_left_push (f : Item -> jsstring) (items : list Item) :
  forall lines,
    fold_left (fun lines item => push lines (f item)) items lines
    = lines ++ List.map f items.
Proof.
  induction items as [| item items IH]; intros lines; cbn [fold_left List.map].
  - rewrite app_nil_r. reflexivity.
  - rewrite IH. unfold push. rewrite <- app_assoc. reflexivity.
Qed.

(** A cell made by a formatter that returned nothing is empty. *)
Lemma csvEscape_empty : csvEscape (VStr []) = [].
Proof. reflexivity. Qed.

Lemma formatNumber_no_number (v : value) :
  Spec.no_number v -> formatNumber v = [].
Proof.
  intros [-> | [-> | [-> | H]]]; try reflexivity.
  unfold formatNumber. rewrite H. destruct v as [| | b | x | [| c s]]; reflexivity.
Qed.

Lemma formatDate_no_date (h : Host) (v : value) :
  Spec.no_date h v -> formatDate h v = [].
Proof.
  unfold formatDate. intros [H | H]; rewrite H; [reflexivity |].
  destruct (negb (truthy v)); reflexivity.
Qed.

(** C9. For every receipt and every host the builder yields a text: the
    lines joined by single line feeds, which are, in order, the six
    metadata lines (a label, a comma, the cell), an empty line, [Items],
    [Name,Quantity,Price], and one line per item in the order of the store,
    holding the cells of its name, of its quantity (nothing when absent)
    and of its formatted price, separated by commas.  Without items the
    text ends with the two header lines.  A purchase date no date can be
    made of, a total or a price no number can be made of, leave their cell
    empty and the rest of the document as it is. *)
Theorem buildReceiptCsv_layout (h : Host) (data : Receipt) :
  let items := match receipt_items data with Some l => l | None => [] end in
  let date_cell := csvEscape (VStr (formatDate h (purchase_at data))) in
  let total_cell := csvEscape (VStr (formatNumber (total data))) in
  let price_cell (item : Item) :=
    csvEscape (VStr (formatNumber (price item))) in
  let metadata :=
    [Js.lit "Merchant," ++ csvEscape (merchant data);
     Js.lit "Purchase Date," ++ date_cell;
     Js.lit "Total," ++ total_cell;
     Js.lit "Currency," ++ csvEscape (currency data);
     Js.lit "Category," ++ csvEscape (category data);
     Js.lit "Receipt ID," ++ csvEscape (VStr (id data))] in
  let row (item : Item) :=
    csvEscape (name item) ++ [Js.COMMA]
    ++ csvEscape (match quantity item with
                  | VNull | VUndefined => VStr []
                  | q => q
                  end) ++ [Js.COMMA]
    ++ price_cell item in
  buildReceiptCsv h data
  = Js.join [Js.LF]
      (metadata ++ [[]; Js.lit "Items"; Js.lit "Name,Quantity,Price"]
       ++ List.map row items)
  /\ (items = [] ->
      buildReceiptCsv h data
      = Js.join [Js.LF] metadata
        ++ [Js.LF; Js.LF] ++ Js.lit "Items" ++ [Js.LF]
        ++ Js.lit "Name,Quantity,Price")
  /\ (Spec.no_date h (purchase_at data) -> date_cell = [])
  /\ (Spec.no_number (total data) -> total_cell = [])
  /\ (forall item, Spec.no_number (price item) -> price_cell item = []).
Proof.
  cbv zeta.
  assert (E : buildReceiptCsv h data
              = Js.join [Js.LF]
                  ([Js.lit "Merchant," ++ csvEscape (merchant data);
                    Js.lit "Purchase Date,"
                    ++ csvEscape (VStr (formatDate h (purchase_at data)));
                    Js.lit "Total," ++ csvEscape (VStr (formatNumber (total data)));
                    Js.lit "Currency," ++ csvEscape (currency data);
                    Js.lit "Category," ++ csvEscape (category data);
                    Js.lit "Receipt ID," ++ csvEscape (VStr (id data))]
                   ++ [[]; Js.lit "Items"; Js.lit "Name,Quantity,Price"]
                   ++ List.map
                        (fun item =>
                           csvEscape (name item) ++ [Js.COMMA]
                           ++ csvEscape (match quantity item with
                                         | VNull | VUndefined => VStr []
                                         | q => q
                                         end) ++ [Js.COMMA]
                           ++ csvEscape (VStr (formatNumber (price item))))
                        (match receipt_items data with
                         | Some l => l
                         | None => []
                         end))).
  { unfold buildReceiptCsv. cbv zeta. rewrite fold_left_push.
    unfold push. cbn [app]. do 10 f_equal.
    apply List.map_ext. intros item. unfold item_line.
    destruct (quantity item); reflexivity. }
  split; [exact E |].
  split.
  { intros Hnil. rewrite E, Hnil.
    cbn [List.map app Js.join].
    repeat first [rewrite <- app_assoc | progress cbn [app]]. reflexivity. }
  split; [intros H; rewrite (formatDate_no_date h _ H); apply csvEscape_empty |].
  split; [intros H; rewrite (formatNumber_no_number _ H); apply csvEscape_empty |].
  intros item H. rewrite (formatNumber_no_number _ H). apply csvEscape_empty.
Qed.

(** The theorem at work: a receipt with two items, the second with a comma
    in its name and no quantity; a receipt without items; and a total that
    is no number. *)
Lemma buildReceiptCsv_layout_witness :
  buildReceiptCsv Sample.runtime Sample.receipt1
  = Js.lit "Merchant,Cafe" ++ [Js.LF]
    ++ Js.lit "Purchase Date,2024-03-05" ++ [Js.LF]
    ++ Js.lit "Total,12.50" ++ [Js.LF]
    ++ Js.lit "Currency,USD" ++ [Js.LF]
    ++ Js.lit "Category," ++ [Js.LF]
    ++ Js.lit "Receipt ID,11111111-2222-3333-4444-555555555555" ++ [Js.LF]
    ++ [Js.LF]
    ++ Js.lit "Items" ++ [Js.LF]
    ++ Js.lit "Name,Quantity,Price" ++ [Js.LF]
    ++ Js.lit "Coffee,2,3.50" ++ [Js.LF]
    ++ [Js.DQUOTE] ++ Js.lit "Bagel, toasted" ++ [Js.DQUOTE] ++ Js.lit ",,5.50"
  /\ buildReceiptCsv Sample.runtime Sample.receipt2
     = Js.lit "Merchant,Hotel" ++ [Js.LF]
       ++ Js.lit "Purchase Date," ++ [Js.LF]
       ++ Js.lit "Total," ++ [Js.LF]
       ++ Js.lit "Currency," ++ [Js.LF]
       ++ Js.lit "Category," ++ [Js.LF]
       ++ Js.lit "Receipt ID,aaaaaaaa-bbbb-cccc-dddd-eeeeeeeeeeee" ++ [Js.LF]
       ++ [Js.LF]
       ++ Js.lit "Items" ++ [Js.LF]
       ++ Js.lit "Name,Quantity,Price"
  /\ csvEscape (VStr (formatNumber (total Sample2.unreadable))) = []
  /\ csvEscape (VStr (formatDate Sample.runtime (purchase_at Sample2.unreadable)))
     = [].
Proof.
  split; [| split; [| split]].
  - rewrite (proj1 (buildReceiptCsv_layout Sample.runtime Sample.receipt1)).
    vm_compute. reflexivity.
  - rewrite (proj1 (proj2 (buildReceiptCsv_layout Sample.runtime Sample.receipt2))
               eq_refl).
    vm_compute. reflexivity.
  - apply (proj1 (proj2 (proj2 (proj2
             (buildReceiptCsv_layout Sample.runtime Sample2.unreadable))))).
    right. right. right. vm_compute. reflexivity.
  - apply (proj1 (proj2 (proj2
             (buildReceiptCsv_layout Sample.runtime Sample2.unreadable)))).
    right. vm_compute. reflexivity.
Defined.

(** A receipt with two items, exported by its owner: the metadata, the
    headers and two rows, the second with a quoted name and an empty
    quantity. *)
Example export_own_receipt :
  fst (export_csv Sample.server (Sample.request_of_U1 Sample.id1))
  = {| status := 200;
       reply_headers :=
         [(Js.lit "Content-Type", Js.lit "text/csv; charset=utf-8");
          (Js.lit "Content-Disposition",
           Js.lit "attachment; filename=receipt_11111111-2222-3333-4444-555555555555.csv")];
       body := BText
         (Js.lit "Merchant,Cafe" ++ [Js.LF]
          ++ Js.lit "Purchase Date,2024-03-05" ++ [Js.LF]
          ++ Js.lit "Total,12.50" ++ [Js.LF]
          ++ Js.lit "Currency,USD" ++ [Js.LF]
          ++ Js.lit "Category," ++ [Js.LF]
          ++ Js.lit "Receipt ID,11111111-2222-3333-4444-555555555555" ++ [Js.LF]
          ++ [Js.LF]
          ++ Js.lit "Items" ++ [Js.LF]
          ++ Js.lit "Name,Quantity,Price" ++ [Js.LF]
          ++ Js.lit "Coffee,2,3.50" ++ [Js.LF]
          ++ [Js.DQUOTE] ++ Js.lit "Bagel, toasted" ++ [Js.DQUOTE]
          ++ Js.lit ",,5.50") |}.
Proof. vm_compute. reflexivity. Qed.

End Csv.

(** ** The JSON extractor *)

Section Trim.

Lemma trimStart_head (s : jsstring) (c : N) (t : jsstring) :
  Js.trimStart s = c :: t -> Js.isWhite c = false.
Proof.
  induction s as [| x s IH]; cbn [Js.trimStart]; [discriminate |].
  destruct (Js.isWhite x) eqn:Hx; [exact IH |].
  intros E. injection E as <- _. exact Hx.
Qed.

Lemma trimStart_id (s : jsstring) :
  match s with [] => True | c :: _ => Js.isWhite c = false end ->
  Js.trimStart s = s.
Proof.
  destruct s as [| c s]; [reflexivity |].
  cbn [Js.trimStart]. intros ->. reflexivity.
Qed.

Lemma trimEnd_cons (c : N) (s : jsstring) :
  Js.trimEnd (c :: s)
  = match Js.trimEnd s with
    | [] => if Js.isWhite c then [] else [c]
    | t => c :: t
    end.
Proof. reflexivity. Qed.

(** [trimEnd] keeps the first code unit or removes everything. *)
Lemma trimEnd_head (c : N) (s : jsstring) :
  Js.trimEnd (c :: s) = [] \/ exists t, Js.trimEnd (c :: s) = c :: t.
Proof.
  rewrite trimEnd_cons.
  destruct (Js.trimEnd s) as [| d t].
  - destruct (Js.isWhite c); [left | right; exists []]; reflexivity.
  - right. exists (d :: t). reflexivity.
Qed.

Lemma trimEnd_idem (s : jsstring) : Js.trimEnd (Js.trimEnd s) = Js.trimEnd s.
Proof.
  induction s as [| c s IH]; [reflexivity |].
  rewrite trimEnd_cons.
  destruct (Js.trimEnd s) as [| d t] eqn:E.
  - destruct (Js.isWhite c) eqn:Hc; [reflexivity |].
    cbn [Js.trimEnd]. rewrite Hc. reflexivity.
  - rewrite trimEnd_cons, IH. reflexivity.
Qed.

Lemma trim_idem (s : jsstring) : Js.trim (Js.trim s) = Js.trim s.
Proof.
  unfold Js.trim.
  destruct (Js.trimStart s) as [| c t] eqn:E; [reflexivity |].
  pose proof (trimStart_head s c t E) as Hc.
  pose proof (trimEnd_idem (c :: t)) as I.
  destruct (trimEnd_head c t) as [H0 | (t' & H1)].
  - rewrite H0. reflexivity.
  - rewrite H1 in *. rewrite trimStart_id by exact Hc. exact I.
Qed.

End Trim.

Section FencePatterns.
Import Regex.

(** *** The equations of the matcher *)

Lemma run_chr (ci : bool) (a : N) (r : list atom) (s : jsstring)
    (grp cap : option jsstring) :
  run ci (Chr a :: r) s grp cap
  = match s with
    | x :: s' =>
        if (canon ci x =? canon ci a)%N then run ci r s' (push x grp) cap
        else None
    | [] => None
    end.
Proof. reflexivity. Qed.

Lemma run_greedy (ci : bool) (p : N -> bool) (r : list atom) (s : jsstring)
    (grp cap : option jsstring) :
  run ci (Star true p :: r) s grp cap
  = match s with
    | x :: s' =>
        if p x then
          match run ci (Star true p :: r) s' (push x grp) cap with
          | Some m => Some m
          | None => run ci r s grp cap
          end
        else run ci r s grp cap
    | [] => run ci r s grp cap
    end.
Proof. destruct s; reflexivity. Qed.

Lemma run_lazy (ci : bool) (p : N -> bool) (r : list atom) (s : jsstring)
    (grp cap : option jsstring) :
  run ci (Star false p :: r) s grp cap
  = match run ci r s grp cap with
    | Some m => Some m
    | None =>
        match s with
        | x :: s' =>
            if p x then run ci (Star false p :: r) s' (push x grp) cap
            else None
        | [] => None
        end
    end.
Proof. destruct s; reflexivity. Qed.

Lemma run_open (ci : bool) (r : list atom) (s : jsstring)
    (grp cap : option jsstring) :
  run ci (Open :: r) s grp cap = run ci r s (Some []) cap.
Proof. reflexivity. Qed.

Lemma run_close (ci : bool) (r : list atom) (s : jsstring)
    (grp cap : option jsstring) :
  run ci (Close :: r) s grp cap = run ci r s None (option_map (@rev N) grp).
Proof. reflexivity. Qed.

Lemma exec_eq (ci : bool) (r : list atom) (s : jsstring) :
  exec ci r s
  = match run ci r s None None with
    | Some m => Some m
    | None => match s with [] => None | _ :: s' => exec ci r s' end
    end.
Proof. destruct s; reflexivity. Qed.

(** *** Literals *)

(** Under the [i] flag two code units match when they are the same letter
    in either case. *)
Lemma canon_lower (x a : N) :
  (canon true x =? canon true a)%N = (Spec.lower x =? Spec.lower a)%N.
Proof.
  unfold canon, Spec.lower. cbn [andb].
  case_N_tests; try reflexivity; lia.
Qed.

Lemma canon_eq (ci : bool) (x a : N) :
  (canon ci x =? canon ci a)%N
  = (if ci then Spec.lower x =? Spec.lower a else x =? a)%N.
Proof. destruct ci; [apply canon_lower | reflexivity]. Qed.

(** A literal prefix of the pattern strips the same prefix off the text. *)
Lemma run_literal (ci : bool) (p : jsstring) (r : list atom) :
  forall (s : jsstring) (cap : option jsstring),
    run ci (List.map Chr p ++ r) s None cap
    = match Spec.strip ci p s with
      | Some rest => run ci r rest None cap
      | None => None
      end.
Proof.
  induction p as [| a p IH]; intros s cap; [reflexivity |].
  cbn [List.map app]. rewrite run_chr.
  destruct s as [| x s]; [reflexivity |].
  cbn [Spec.strip push option_map]. rewrite canon_eq.
  destruct (if ci then (Spec.lower x =? Spec.lower a)%N else (x =? a)%N);
    [apply IH | reflexivity].
Qed.

Lemma strip_startsWith (p s : jsstring) :
  Js.startsWith p s = match Spec.strip false p s with Some _ => true | None => false end.
Proof.
  revert s. induction p as [| a p IH]; intros s; [reflexivity |].
  destruct s as [| x s]; [reflexivity |].
  cbn [Js.startsWith Spec.strip]. rewrite N.eqb_sym.
  destruct (x =? a)%N; [apply IH | reflexivity].
Qed.

(** The closing fence alone. *)
Lemma run_ticks (ci : bool) (s : jsstring) (cap : option jsstring) :
  run ci (chars "```") s None cap
  = if Js.startsWith Spec.fence s then Some cap else None.
Proof.
  unfold chars.
  rewrite <- (app_nil_r (List.map Chr (Js.lit "```"))), run_literal.
  rewrite strip_startsWith. unfold Spec.fence.
  assert (E : Spec.strip ci (Js.lit "```") s = Spec.strip false (Js.lit "```") s).
  { destruct ci; [| reflexivity].
    assert (L : forall x, (Spec.lower x =? Spec.lower 96)%N = (x =? 96)%N).
    { intros x. rewrite <- canon_lower. unfold canon. cbn [andb].
      case_N_tests; try reflexivity; lia. }
    change (Js.lit "```") with [96%N; 96%N; 96%N].
    destruct s as [| x1 [| x2 [| x3 s]]]; cbn [Spec.strip];
      rewrite ?L; try reflexivity;
      repeat match goal with
             | |- context [(?u =? 96)%N] => destruct (u =? 96)%N; cbn [Spec.strip]; rewrite ?L
             end; reflexivity. }
  rewrite E. destruct (Spec.strip false (Js.lit "```") s); reflexivity.
Qed.

(** *** The closing part of a fence pattern *)

Lemma white_not_backtick (x : N) (s : jsstring) :
  Js.isWhite x = true -> Js.startsWith Spec.fence (x :: s) = false.
Proof.
  intros H. change Spec.fence with [96%N; 96%N; 96%N].
  cbn [Js.startsWith].
  destruct (N.eqb_spec 96 x) as [<- | _]; [discriminate H | reflexivity].
Qed.

Lemma backtick_not_white (s : jsstring) :
  Js.startsWith Spec.fence s = true -> Js.trimStart s = s.
Proof.
  destruct s as [| x s]; [reflexivity |].
  intros H. cbn [Js.trimStart].
  destruct (Js.isWhite x) eqn:Hx; [| reflexivity].
  rewrite white_not_backtick in H by exact Hx. discriminate.
Qed.

(** White space, then the closing fence: the greedy star gives nothing
    back, since white space is no backtick. *)
Lemma run_closing (ci : bool) (s : jsstring) (cap : option jsstring) :
  run ci (Star true Js.isWhite :: chars "```") s None cap
  = if Js.startsWith Spec.fence (Js.trimStart s) then Some cap else None.
Proof.
  induction s as [| x s IH]; rewrite run_greedy.
  - rewrite run_ticks. reflexivity.
  - cbn [Js.trimStart push option_map].
    destruct (Js.isWhite x) eqn:Hx.
    + rewrite IH.
      destruct (Js.startsWith Spec.fence (Js.trimStart s)); [reflexivity |].
      rewrite run_ticks, white_not_backtick by exact Hx. reflexivity.
    + rewrite run_ticks. reflexivity.
Qed.

(** The text before the first fence is white space exactly when the
    closing part matches here. *)
Lemma until_fence_cons (x : N) (s : jsstring) :
  Js.startsWith Spec.fence (x :: s) = false ->
  Spec.until_fence (x :: s) = option_map (cons x) (Spec.until_fence s).
Proof. intros H. cbn [Spec.until_fence]. rewrite H. reflexivity. Qed.

Lemma until_fence_here (s : jsstring) :
  Js.startsWith Spec.fence s = true -> Spec.until_fence s = Some [].
Proof. intros H. destruct s; cbn [Spec.until_fence]; rewrite H; reflexivity. Qed.

Lemma closing_until_fence (s : jsstring) :
  Js.startsWith Spec.fence (Js.trimStart s) = true ->
  exists inner, Spec.until_fence s = Some inner /\ Js.trimEnd inner = [].
Proof.
  induction s as [| x s IH]; [discriminate |].
  cbn [Js.trimStart]. destruct (Js.isWhite x) eqn:Hx; intros H.
  - destruct (IH H) as (inner & Hu & Ht).
    exists (x :: inner). split.
    + rewrite until_fence_cons, Hu by (apply white_not_backtick, Hx).
      reflexivity.
    + rewrite trimEnd_cons, Ht, Hx. reflexivity.
  - exists []. split; [apply until_fence_here, H | reflexivity].
Qed.

Lemma until_fence_closing (s inner : jsstring) :
  Spec.until_fence s = Some inner -> Js.trimEnd inner = [] ->
  Js.startsWith Spec.fence (Js.trimStart s) = true.
Proof.
  revert inner. induction s as [| x s IH]; intros inner Hu Ht;
    [discriminate |].
  destruct (Js.startsWith Spec.fence (x :: s)) eqn:Hs.
  - rewrite backtick_not_white by exact Hs. exact Hs.
  - rewrite until_fence_cons in Hu by exact Hs.
    destruct (Spec.until_fence s) as [inner' |] eqn:Hu'; [| discriminate].
    injection Hu as <-. rewrite trimEnd_cons in Ht.
    destruct (Js.trimEnd inner') eqn:Ht'; [| discriminate].
    destruct (Js.isWhite x) eqn:Hx; [| discriminate].
    cbn [Js.trimStart]. rewrite Hx. apply (IH inner'); [reflexivity | exact Ht'].
Qed.

(** *** The group *)

(** The lazy star stops at the first place where the closing part
    matches: the capture is the text before the first fence, without the
    white space that ends it. *)
Lemma run_group (ci : bool) (s : jsstring) :
  forall acc : jsstring,
    run ci (Star false any :: closing_re) s (Some acc) None
    = match Spec.until_fence s with
      | Some inner => Some (Some (rev acc ++ Js.trimEnd inner))
      | None => None
      end.
Proof.
  induction s as [| x s IH]; intros acc; rewrite run_lazy;
    unfold closing_re at 1; rewrite run_close, run_closing;
    cbn [option_map].
  - reflexivity.
  - destruct (Js.startsWith Spec.fence (Js.trimStart (x :: s))) eqn:Hc.
    + destruct (closing_until_fence _ Hc) as (inner & -> & ->).
      rewrite app_nil_r. reflexivity.
    + assert (Hs : Js.startsWith Spec.fence (x :: s) = false).
      { destruct (Js.startsWith Spec.fence (x :: s)) eqn:Hs; [| reflexivity].
        rewrite backtick_not_white in Hc by exact Hs. congruence. }
      unfold any at 1. cbn [push option_map]. fold closing_re.
      rewrite IH, until_fence_cons by exact Hs.
      destruct (Spec.until_fence s) as [inner |] eqn:Hu; [| reflexivity].
      cbn [option_map]. do 2 f_equal.
      cbn [rev]. rewrite <- app_assoc. f_equal. cbn [app].
      rewrite trimEnd_cons.
      destruct (Js.trimEnd inner) as [| d t] eqn:Ht; [| reflexivity].
      destruct (Js.isWhite x) eqn:Hx; [| reflexivity].
      exfalso.
      pose proof (until_fence_closing s inner Hu Ht) as Hc'.
      cbn [Js.trimStart] in Hc. rewrite Hx in Hc. congruence.
Qed.

Lemma until_fence_head (x : N) (s inner : jsstring) :
  Spec.until_fence (x :: s) = Some inner ->
  inner = [] \/ exists t, inner = x :: t.
Proof.
  cbn [Spec.until_fence].
  destruct (Js.startsWith Spec.fence (x :: s)).
  - intros E. injection E as <-. left. reflexivity.
  - destruct (Spec.until_fence s) as [t |]; [| discriminate].
    cbn [option_map]. intros E. injection E as <-. right. exists t. reflexivity.
Qed.

(** After the opening fence: the capture is the trimmed text before the
    next fence. *)
Lemma run_tail (ci : bool) (s : jsstring) :
  run ci tail_re s None None
  = match Spec.until_fence s with
    | Some inner => Some (Some (Js.trim inner))
    | None => None
    end.
Proof.
  unfold tail_re.
  induction s as [| x s IH]; rewrite run_greedy.
  - rewrite run_open, run_group. reflexivity.
  - cbn [push option_map].
    destruct (Js.isWhite x) eqn:Hx.
    + rewrite IH, until_fence_cons by (apply white_not_backtick, Hx).
      destruct (Spec.until_fence s) as [inner |] eqn:Hu.
      * cbn [option_map]. unfold Js.trim. cbn [Js.trimStart]. rewrite Hx.
        reflexivity.
      * rewrite run_open, run_group.
        rewrite until_fence_cons, Hu by (apply white_not_backtick, Hx).
        reflexivity.
    + rewrite run_open, run_group.
      destruct (Spec.until_fence (x :: s)) as [inner |] eqn:Hu; [| reflexivity].
      cbn [rev app]. unfold Js.trim.
      destruct (until_fence_head x s inner Hu) as [-> | (t & ->)];
        [reflexivity |].
      cbn [Js.trimStart]. rewrite Hx. reflexivity.
Qed.

(** *** The two patterns *)

Lemma fenceJson_re_eq :
  fenceJson_re = List.map Chr (Js.lit "```json") ++ tail_re.
Proof. reflexivity. Qed.

Lemma fence_re_eq : fence_re = List.map Chr Spec.fence ++ tail_re.
Proof. reflexivity. Qed.

(** [exec] finds the first span with the given opening, and captures its
    trimmed content. *)
Lemma exec_fence (ci : bool) (opening : jsstring) (s : jsstring) :
  exec ci (List.map Chr opening ++ tail_re) s
  = match Spec.first_span ci opening s with
    | Some inner => Some (Some (Js.trim inner))
    | None => None
    end.
Proof.
  induction s as [| x s IH]; rewrite exec_eq, run_literal;
    cbn [Spec.first_span]; unfold Spec.span_at.
  - destruct (Spec.strip ci opening []) as [after |]; [| reflexivity].
    rewrite run_tail. destruct (Spec.until_fence after); reflexivity.
  - destruct (Spec.strip ci opening (x :: s)) as [after |]; [| exact IH].
    rewrite run_tail. destruct (Spec.until_fence after); [reflexivity | exact IH].
Qed.

(** The rule of [extractJson] for a fence pattern: the trimmed content of
    the first span, when it is not empty. *)
Lemma fence_rule (ci : bool) (opening : jsstring) (s : jsstring) :
  match group1 (exec ci (List.map Chr opening ++ tail_re) s) with
  | Some c => Some (Js.trim c)
  | None => None
  end
  = Spec.nonempty_trimmed (Spec.first_span ci opening s).
Proof.
  rewrite exec_fence. unfold Spec.nonempty_trimmed, group1.
  destruct (Spec.first_span ci opening s) as [inner |]; [| reflexivity].
  destruct (Js.truthy (Js.trim inner)); [| reflexivity].
  rewrite trim_idem. reflexivity.
Qed.

End FencePatterns.

Section Braces.

Lemma indexOf_range (c : N) (s : jsstring) :
  -1 <= Js.indexOf c s < Z.of_nat (length s).
Proof.
  induction s as [| x s IH]; cbn [Js.indexOf length]; [lia |].
  destruct (x =? c)%N; [lia |].
  destruct (Z.eqb_spec (Js.indexOf c s) (-1)); lia.
Qed.

Lemma lastIndexOf_range (c : N) (s : jsstring) :
  -1 <= Js.lastIndexOf c s < Z.of_nat (length s).
Proof.
  induction s as [| x s IH]; cbn [Js.lastIndexOf length]; [lia |].
  destruct (Z.eqb_spec (Js.lastIndexOf c s) (-1)); [| lia].
  destruct (x =? c)%N; lia.
Qed.

(** Within the string, [slice] takes the code units from one position up
    to another. *)
Lemma slice_in_range (a b : Z) (s : jsstring) :
  0 <= a <= b -> b <= Z.of_nat (length s) ->
  Js.slice a b s = firstn (Z.to_nat (b - a)) (skipn (Z.to_nat a) s).
Proof.
  intros Ha Hb. unfold Js.slice.
  destruct (Z.ltb_spec a 0); [lia |].
  destruct (Z.ltb_spec b 0); [lia |].
  rewrite !Z.min_l by lia. reflexivity.
Qed.

Lemma slice_cons (a b : Z) (x : N) (s : jsstring) :
  0 <= a <= b -> b <= Z.of_nat (length s) ->
  Js.slice (a + 1) (b + 1) (x :: s) = Js.slice a b s.
Proof.
  intros Ha Hb.
  rewrite !slice_in_range by (cbn [length]; lia).
  replace (b + 1 - (a + 1)) with (b - a) by lia.
  replace (Z.to_nat (a + 1)) with (S (Z.to_nat a)) by lia.
  reflexivity.
Qed.

(** The prefix that ends at the last [c], by position. *)
Lemma lastIndexOf_upto_last (c : N) (s : jsstring) :
  match Spec.upto_last c s with
  | Some t => 0 <= Js.lastIndexOf c s
              /\ firstn (Z.to_nat (Js.lastIndexOf c s + 1)) s = t
  | None => Js.lastIndexOf c s = -1
  end.
Proof.
  induction s as [| x s IH]; cbn [Spec.upto_last Js.lastIndexOf]; [reflexivity |].
  pose proof (lastIndexOf_range c s) as R.
  destruct (Spec.upto_last c s) as [t |].
  - destruct IH as [H0 Ht].
    destruct (Z.eqb_spec (Js.lastIndexOf c s) (-1)); [lia |].
    split; [lia |].
    replace (Z.to_nat (Js.lastIndexOf c s + 1 + 1))
      with (S (Z.to_nat (Js.lastIndexOf c s + 1))) by lia.
    cbn [firstn]. rewrite Ht. reflexivity.
  - rewrite IH. change (-1 =? -1) with true. cbv iota.
    destruct (x =? c)%N; [split; [lia | reflexivity] | reflexivity].
Qed.

(** The brace rule of the code, by positions, is the brace span. *)
Lemma brace_rule (s : jsstring) :
  (let first := Js.indexOf Js.LBRACE s in
   let last := Js.lastIndexOf Js.RBRACE s in
   if negb (first =? -1) && negb (last =? -1) && (first <? last)
   then Some (Js.slice first (last + 1) s)
   else None)
  = Spec.brace_span s.
Proof.
  cbv zeta. unfold Spec.brace_span.
  induction s as [| x s IH]; [reflexivity |].
  cbn [Js.indexOf Js.lastIndexOf Spec.from_first].
  pose proof (indexOf_range Js.LBRACE s) as Ri.
  pose proof (lastIndexOf_range Js.RBRACE s) as Rl.
  pose proof (lastIndexOf_upto_last Js.RBRACE s) as U.
  destruct (N.eqb_spec x Js.LBRACE) as [-> | Hx].
  - (* the string starts with the opening brace *)
    change (Js.LBRACE =? Js.RBRACE)%N with false.
    destruct (Spec.upto_last Js.RBRACE s) as [t |].
    + destruct U as [U0 Ut].
      destruct (Z.eqb_spec (Js.lastIndexOf Js.RBRACE s) (-1)); [lia |].
      cbn [Z.eqb negb andb option_map].
      destruct (Z.eqb_spec (Js.lastIndexOf Js.RBRACE s + 1) (-1)); [lia |].
      destruct (Z.ltb_spec 0 (Js.lastIndexOf Js.RBRACE s + 1)); [| lia].
      cbn [negb andb].
      rewrite slice_in_range by (cbn [length]; lia).
      replace (Z.to_nat (Js.lastIndexOf Js.RBRACE s + 1 + 1 - 0))
        with (S (Z.to_nat (Js.lastIndexOf Js.RBRACE s + 1))) by lia.
      change (Z.to_nat 0) with O. cbn [skipn firstn]. rewrite Ut. reflexivity.
    + rewrite U. reflexivity.
  - (* it does not: the positions shift by one *)
    rewrite <- IH. clear IH.
    destruct (Z.eqb_spec (Js.indexOf Js.LBRACE s) (-1)) as [Ei | Ni].
    + reflexivity.
    + destruct (Z.eqb_spec (Js.indexOf Js.LBRACE s + 1) (-1)); [lia |].
      cbn [negb andb].
      destruct (Z.eqb_spec (Js.lastIndexOf Js.RBRACE s) (-1)) as [El | Nl].
      * cbn [negb andb].
        destruct (x =? Js.RBRACE)%N; cbn [Z.eqb negb andb].
        -- destruct (Z.ltb_spec (Js.indexOf Js.LBRACE s + 1) 0); [lia | reflexivity].
        -- reflexivity.
      * destruct (Z.eqb_spec (Js.lastIndexOf Js.RBRACE s + 1) (-1)); [lia |].
        cbn [negb andb].
        destruct (Z.ltb_spec (Js.indexOf Js.LBRACE s) (Js.lastIndexOf Js.RBRACE s)),
          (Z.ltb_spec (Js.indexOf Js.LBRACE s + 1) (Js.lastIndexOf Js.RBRACE s + 1));
          try lia; [| reflexivity].
        rewrite slice_cons by lia. reflexivity.
Qed.

End Braces.

Section ExtractJson.

(** The code and the amended priority order agree on every text. *)
Lemma extractJson_refines (s : jsstring) :
  extractJson s = Spec.extractJson_amended s.
Proof.
  unfold extractJson, Spec.extractJson_amended, Spec.json_span, Spec.any_span.
  destruct s as [| x s]; [reflexivity |].
  cbn [Js.truthy negb].
  rewrite fenceJson_re_eq, fence_re_eq.
  pose proof (fence_rule true (Js.lit "```json") (x :: s)) as R1.
  pose proof (fence_rule false Spec.fence (x :: s)) as R2.
  rewrite <- R1, <- R2.
  destruct (Regex.group1 (Regex.exec true _ (x :: s))); [reflexivity |].
  destruct (Regex.group1 (Regex.exec false _ (x :: s))); [reflexivity |].
  apply brace_rule.
Qed.

Lemma nonempty_trimmed_truthy (inner : option jsstring) (c : jsstring) :
  Spec.nonempty_trimmed inner = Some c -> Js.truthy c = true.
Proof.
  unfold Spec.nonempty_trimmed.
  destruct inner as [t |]; [| discriminate].
  destruct (Js.truthy (Js.trim t)) eqn:T; [| discriminate].
  intros E. injection E as <-. exact T.
Qed.

(** What [extractJson] returns is never the empty string. *)
Lemma extractJson_truthy (s c : jsstring) :
  extractJson s = Some c -> Js.truthy c = true.
Proof.
  rewrite extractJson_refines. unfold Spec.extractJson_amended.
  destruct (Spec.nonempty_trimmed (Spec.json_span s)) as [c1 |] eqn:E1.
  { intros E. injection E as <-. exact (nonempty_trimmed_truthy _ _ E1). }
  destruct (Spec.nonempty_trimmed (Spec.any_span s)) as [c2 |] eqn:E2.
  { intros E. injection E as <-. exact (nonempty_trimmed_truthy _ _ E2). }
  unfold Spec.brace_span.
  destruct (Spec.from_first Js.LBRACE s) as [[| b rest] |]; try discriminate.
  destruct (Spec.upto_last Js.RBRACE rest); [| discriminate].
  cbn [option_map]. intros E. injection E as <-. reflexivity.
Qed.



End ExtractJson.

(** ** The analysis endpoint *)

Section Analyze.

(** C3, where it fails: when the file was read, an API key is configured
    and the model answered with [text], a text in which [extractJson] finds
    nothing is answered 502 with the raw text, while a text whose extracted
    candidate [JSON.parse] rejects is answered 500 with the message of the
    error, as a failed call to the model is: the two failures do not get
    the same kind of response. *)
Theorem analyze_parse_failure_response
    (srv : Server) (data : Upload) (key text : jsstring) :
  file_error data = None ->
  or_else (GEMINI_API_KEY (env srv)) (GOOGLE_API_KEY (env srv)) = Some key ->
  key <> [] ->
  generate_content (host srv) key (media_type data) (concat (file data))
  = inr (Some text) ->
  (extractJson text = None ->
   analyze_receipt srv (inr (Some data))
   = Sent {| status := 502; reply_headers := [];
             body := BError (Js.lit "Model did not return JSON")
                            [(Js.lit "raw", text)] |})
  /\ (forall c, extractJson text = Some c -> Json.parse c = None ->
       analyze_receipt srv (inr (Some data))
       = Sent {| status := 500; reply_headers := [];
                 body := BError (Js.lit "Failed to analyze receipt")
                                [(Js.lit "details",
                                  syntax_error_message (host srv) c)] |}).
Proof.
  intros Hfile Hkey Hne Hgen. unfold analyze_receipt.
  rewrite Hfile, Hkey. cbv zeta.
  destruct key as [| k key]; [contradiction |]. cbn [Js.truthy negb].
  rewrite Hgen. split.
  - intros ->. reflexivity.
  - intros c Hc Hp. rewrite Hc, (extractJson_truthy _ _ Hc), Hp. reflexivity.
Qed.

(** The theorem at work: the model answers with a brace pair that is not
    JSON, and with prose. *)
Lemma analyze_parse_failure_response_witness :
  analyze_receipt Sample.server (inr (Some (Sample.upload (Js.lit "{oops}"))))
  = Sent {| status := 500; reply_headers := [];
            body := BError (Js.lit "Failed to analyze receipt")
                           [(Js.lit "details", Js.lit "Unexpected token")] |}
  /\ analyze_receipt Sample.server
       (inr (Some (Sample.upload (Js.lit "no json here at all"))))
     = Sent {| status := 502; reply_headers := [];
               body := BError (Js.lit "Model did not return JSON")
                              [(Js.lit "raw", Js.lit "no json here at all")] |}.
Proof.
  split.
  - apply (proj2 (analyze_parse_failure_response
                    Sample.server (Sample.upload (Js.lit "{oops}"))
                    (Js.lit "key") (Js.lit "{oops}")
                    eq_refl eq_refl ltac:(discriminate) eq_refl)
             (Js.lit "{oops}")); vm_compute; reflexivity.
  - apply (proj1 (analyze_parse_failure_response
                    Sample.server (Sample.upload (Js.lit "no json here at all"))
                    (Js.lit "key") (Js.lit "no json here at all")
                    eq_refl eq_refl ltac:(discriminate) eq_refl)).
    vm_compute. reflexivity.
Defined.

(** A model answer that holds JSON is parsed and sent back. *)
Example analyze_success :
  analyze_receipt Sample.server
    (inr (Some (Sample.upload (Js.lit "Sure: {" ++ [Js.DQUOTE] ++ Js.lit "total"
                               ++ [Js.DQUOTE] ++ Js.lit ": 12.5, " ++ [Js.DQUOTE]
                               ++ Js.lit "items" ++ [Js.DQUOTE] ++ Js.lit ": []}"))))
  = Sent {| status := 200; reply_headers := [];
            body := BJson (JObj [(Js.lit "total", JNum (Num.round_ratio false 125 10));
                                 (Js.lit "items", JArr [])]) |}.
Proof. vm_compute. reflexivity. Qed.

(** With no key but an empty [GOOGLE_API_KEY], the model is not called. *)
Example analyze_empty_key (h : Host) (data : Upload) :
  file_error data = None ->
  analyze_receipt
    {| host := h;
       env := {| SUPABASE_JWT_SECRET := None; GEMINI_API_KEY := None;
                 GOOGLE_API_KEY := Some [] |};
       supabase := None |} (inr (Some data))
  = Sent (send_error 500 "Server missing GEMINI_API_KEY environment variable").
Proof. intros H. unfold analyze_receipt. rewrite H. reflexivity. Qed.

End Analyze.

(** * Further properties of the export endpoint *)

Section ExportMore.

Lemma valid_id_test (rid : jsstring) :
  ~ Spec.invalid_id (Some rid) ->
  negb (Js.truthy rid) || negb (id_pattern_test rid) = false.
Proof.
  intros Hvalid.
  assert (Htest : id_pattern_test rid = true).
  { destruct (id_pattern_test rid) eqn:E; [reflexivity |].
    exfalso. apply Hvalid, id_pattern_test_spec, E. }
  rewrite Htest. destruct rid; [discriminate Htest | reflexivity].
Qed.

(** Past both gates, with a client: the response is decided by the answer
    of the one query. *)
Lemma export_after_gates (srv : Server) (request : Request)
    (u rid : jsstring) (st : Store) :
  authenticate srv request = inr u -> params_id request = Some rid ->
  ~ Spec.invalid_id (Some rid) -> supabase srv = Some st ->
  export_csv srv request
  = let q := {| q_id := rid; q_user_id := u |} in
    match error (maybeSingle st q), data (maybeSingle st q) with
    | Some _, _ => (send_error 500 "Database query failed", [q])
    | None, None => (send_error 404 "Receipt not found", [q])
    | None, Some row =>
        ({| status := 200;
            reply_headers :=
              [(Js.lit "Content-Type", Js.lit "text/csv; charset=utf-8");
               (Js.lit "Content-Disposition",
                Js.lit "attachment; filename=receipt_" ++ rid ++ Js.lit ".csv")];
            body := BText (buildReceiptCsv (host srv) row) |}, [q])
    end.
Proof.
  intros Hu Hid Hvalid Hst. unfold export_csv.
  rewrite Hu, Hid, (valid_id_test rid Hvalid), Hst. reflexivity.
Qed.

(** The rows that pass both filters when one stored row, and no other, has
    the requested id and owner. *)
Lemma filter_single (before after : list Receipt) (row : Receipt)
    (rid u : jsstring) :
  id row = rid -> user_id row = u ->
  (forall r, In r (before ++ after) -> id r = rid -> user_id r <> u) ->
  List.filter (fun r => Js.eqb (id r) rid && Js.eqb (user_id r) u)
    (before ++ row :: after) = [row].
Proof.
  intros Hid Hu Hothers.
  rewrite List.filter_app. cbn [List.filter].
  rewrite (filter_not_owned before rid u)
    by (intros r Hin; apply Hothers, in_or_app; left; exact Hin).
  rewrite (filter_not_owned after rid u)
    by (intros r Hin; apply Hothers, in_or_app; right; exact Hin).
  unfold Js.eqb. rewrite !bool_decide_eq_true_2 by assumption. reflexivity.
Qed.

(** The owner of a stored receipt, asking for it by its id, gets 200 with
    the CSV of that receipt, a CSV content type and an attachment named
    after the id of the request; the store saw one query. *)
Theorem export_owner_gets_csv
    (srv : Server) (request : Request) (u rid : jsstring) (st : Store)
    (before after : list Receipt) (row : Receipt) :
  authenticate srv request = inr u -> params_id request = Some rid ->
  ~ Spec.invalid_id (Some rid) ->
  supabase srv = Some st -> fault st = None ->
  receipts st = before ++ row :: after ->
  id row = rid -> user_id row = u ->
  (forall r, In r (before ++ after) -> id r = rid -> user_id r <> u) ->
  export_csv srv request
  = ({| status := 200;
        reply_headers :=
          [(Js.lit "Content-Type", Js.lit "text/csv; charset=utf-8");
           (Js.lit "Content-Disposition",
            Js.lit "attachment; filename=receipt_" ++ rid ++ Js.lit ".csv")];
        body := BText (buildReceiptCsv (host srv) row) |},
     [{| q_id := rid; q_user_id := u |}]).
Proof.
  intros Hu Hid Hvalid Hst Hfault Hrows Hrid Hown Hothers.
  rewrite (export_after_gates srv request u rid st Hu Hid Hvalid Hst).
  cbv zeta. unfold maybeSingle. rewrite Hfault, Hrows. cbn [q_id q_user_id].
  rewrite (filter_single before after row rid u Hrid Hown Hothers).
  reflexivity.
Qed.

Lemma export_owner_gets_csv_witness :
  body (fst (export_csv Sample.server (Sample.request_of_U1 Sample.id1)))
  = BText (buildReceiptCsv Sample.runtime Sample.receipt1).
Proof.
  rewrite (export_owner_gets_csv Sample.server
             (Sample.request_of_U1 Sample.id1) (Js.lit "U1") Sample.id1
             Sample.store [] [Sample.receipt2] Sample.receipt1
             ltac:(vm_compute; reflexivity) eq_refl
             ltac:(rewrite <- id_pattern_test_spec; vm_compute; discriminate)
             eq_refl eq_refl eq_refl eq_refl eq_refl
             ltac:(intros r [<- | []]; vm_compute; congruence)).
  reflexivity.
Defined.

(** The witness of [export_200_owned]: the receipt U1 is sent is its own. *)
Lemma export_200_owned_witness :
  exists u rid st row,
    authenticate Sample.server (Sample.request_of_U1 Sample.id1) = inr u
    /\ params_id (Sample.request_of_U1 Sample.id1) = Some rid
    /\ supabase Sample.server = Some st /\ In row (receipts st)
    /\ id row = rid /\ user_id row = u
    /\ body (fst (export_csv Sample.server (Sample.request_of_U1 Sample.id1)))
       = BText (buildReceiptCsv (host Sample.server) row).
Proof.
  apply (export_200_owned Sample.server (Sample.request_of_U1 Sample.id1)).
  vm_compute. reflexivity.
Defined.

Lemma filter_and {A : Type} (p q : A -> bool) (l : list A) :
  List.filter (fun x => p x && q x) l = List.filter p (List.filter q l).
Proof.
  induction l as [| x l IH]; [reflexivity |].
  cbn [List.filter]. destruct (q x); cbn [List.filter].
  - rewrite andb_true_r. destruct (p x); rewrite IH; reflexivity.
  - rewrite andb_false_r. exact IH.
Qed.

Lemma authenticate_with_store (srv : Server) (st : Store) (request : Request) :
  authenticate (with_store srv st) request = authenticate srv request.
Proof. reflexivity. Qed.

(** The response to a user depends on the store through that user's rows
    only: two stores that hold the same rows of the authenticated subject,
    and fail alike, get the same response and the same query, whatever rows
    of other users they hold. *)
Theorem export_sees_own_rows_only
    (srv : Server) (request : Request) (u : jsstring) (st st' : Store) :
  authenticate srv request = inr u ->
  supabase srv = Some st -> fault st' = fault st ->
  rows_of u st' = rows_of u st ->
  export_csv (with_store srv st') request = export_csv srv request.
Proof.
  intros Hu Hst Hfault Hrows.
  assert (Hq : forall q, q_user_id q = u -> maybeSingle st' q = maybeSingle st q).
  { intros q Hqu. unfold maybeSingle. rewrite Hfault.
    rewrite !(filter_and (fun r => Js.eqb (id r) (q_id q))
                         (fun r => Js.eqb (user_id r) (q_user_id q))).
    rewrite Hqu. fold (rows_of u st') (rows_of u st). rewrite Hrows.
    reflexivity. }
  unfold export_csv. rewrite authenticate_with_store, Hu.
  destruct (params_id request) as [rid |]; [| reflexivity].
  destruct (negb (Js.truthy rid) || negb (id_pattern_test rid));
    [reflexivity |].
  cbn [supabase with_store host]. rewrite Hst.
  rewrite (Hq {| q_id := rid; q_user_id := u |} eq_refl). reflexivity.
Qed.

Lemma export_sees_own_rows_only_witness :
  export_csv (with_store Sample.server Sample2.larger_store)
             (Sample.request_of_U1 Sample.id3)
  = export_csv Sample.server (Sample.request_of_U1 Sample.id3).
Proof.
  apply (export_sees_own_rows_only Sample.server
           (Sample.request_of_U1 Sample.id3) (Js.lit "U1")
           Sample.store Sample2.larger_store);
    vm_compute; reflexivity.
Defined.

(** The endpoint answers with one of five statuses, never with 403, and
    sends the store at most one query per request. *)
Theorem export_statuses (srv : Server) (request : Request) :
  In (status (fst (export_csv srv request))) [200; 400; 401; 404; 500]
  /\ (length (snd (export_csv srv request)) <= 1)%nat.
Proof.
  unfold export_csv.
  destruct (authenticate srv request) as [sent | u] eqn:Hu.
  { cbn [fst snd length].
    destruct (authenticate_reply_status _ _ _ Hu) as [E | E]; rewrite E;
      split; cbn; auto 10. }
  repeat match goal with
         | |- context [match ?x with _ => _ end] => destruct x
         end; split; cbn; auto 10.
Qed.

(** What goes wrong behind the gates stays on the server: without a client
    the answer is a 500 and no query is sent; when the store answers with an
    error, whichever it is, or when several rows match, the answer is the
    same 500, which carries nothing of the error. *)
Theorem export_store_failure
    (srv : Server) (request : Request) (u rid : jsstring) :
  authenticate srv request = inr u -> params_id request = Some rid ->
  ~ Spec.invalid_id (Some rid) ->
  (supabase srv = None ->
   export_csv srv request
   = (send_error 500 "Supabase client not initialized on server", []))
  /\ (forall st e, supabase srv = Some st -> fault st = Some e ->
        export_csv srv request
        = (send_error 500 "Database query failed",
           [{| q_id := rid; q_user_id := u |}]))
  /\ (forall st r1 r2 rest, supabase srv = Some st -> fault st = None ->
        List.filter (fun r => Js.eqb (id r) rid)
                    (rows_of u st) = r1 :: r2 :: rest ->
        export_csv srv request
        = (send_error 500 "Database query failed",
           [{| q_id := rid; q_user_id := u |}])).
Proof.
  intros Hu Hid Hvalid. split; [| split].
  - intros Hnone. unfold export_csv.
    rewrite Hu, Hid, (valid_id_test rid Hvalid), Hnone. reflexivity.
  - intros st e Hst Hf.
    rewrite (export_after_gates srv request u rid st Hu Hid Hvalid Hst).
    cbv zeta. unfold maybeSingle. rewrite Hf. reflexivity.
  - intros st r1 r2 rest Hst Hf Hmany.
    rewrite (export_after_gates srv request u rid st Hu Hid Hvalid Hst).
    cbv zeta. unfold maybeSingle. rewrite Hf. cbn [q_id q_user_id].
    rewrite filter_and. fold (rows_of u st). rewrite Hmany. reflexivity.
Qed.

Lemma export_store_failure_witness :
  export_csv (with_store Sample.server Sample2.failing_store)
             (Sample.request_of_U1 Sample.id1)
  = (send_error 500 "Database query failed",
     [{| q_id := Sample.id1; q_user_id := Js.lit "U1" |}]).
Proof.
  apply (proj1 (proj2 (export_store_failure
                        (with_store Sample.server Sample2.failing_store)
                        (Sample.request_of_U1 Sample.id1)
                        (Js.lit "U1") Sample.id1
                        ltac:(vm_compute; reflexivity) eq_refl
                        ltac:(rewrite <- id_pattern_test_spec; vm_compute;
                              discriminate)))
           Sample2.failing_store (Js.lit "connection refused")
           eq_refl eq_refl).
Defined.

End ExportMore.

(** * Further properties of the gates *)

Section Gates.

Lemma is_hex_isIdChar (c : N) : is_hex c -> isIdChar c = true.
Proof.
  unfold is_hex. intros H. vm_compute in H.
  repeat destruct H as [<- | H]; try reflexivity. contradiction.
Qed.

Lemma forallb_isIdChar_hex (s : jsstring) :
  Forall is_hex s -> forallb isIdChar s = true.
Proof.
  induction 1 as [| c s Hc _ IH]; [reflexivity |].
  cbn [forallb]. rewrite (is_hex_isIdChar c Hc), IH. reflexivity.
Qed.

(** Every UUID in its usual writing passes the id gate, in either case of
    the digits. *)
Theorem uuid_passes_id_gate (s : jsstring) :
  is_uuid s -> id_pattern_test s = true /\ ~ Spec.invalid_id (Some s).
Proof.
  intros (a & b & c & d & e & -> & La & Lb & Lc & Ld & Le & Hhex).
  assert (Ht : id_pattern_test
                 (a ++ Js.lit "-" ++ b ++ Js.lit "-" ++ c ++ Js.lit "-" ++ d
                  ++ Js.lit "-" ++ e) = true).
  { unfold id_pattern_test.
    rewrite !length_app, La, Lb, Lc, Ld, Le. cbn [length Js.lit
      list_ascii_of_string List.map Nat.add Nat.leb andb].
    rewrite !Forall_app in Hhex.
    destruct Hhex as (Ha & Hb & Hc & Hd & He).
    rewrite !forallb_app.
    rewrite (forallb_isIdChar_hex a Ha), (forallb_isIdChar_hex b Hb),
      (forallb_isIdChar_hex c Hc), (forallb_isIdChar_hex d Hd),
      (forallb_isIdChar_hex e He).
    reflexivity. }
  split; [exact Ht |].
  intros Hbad. apply id_pattern_test_spec in Hbad. congruence.
Qed.

Lemma uuid_passes_id_gate_witness : id_pattern_test Sample.id2 = true.
Proof.
  apply (uuid_passes_id_gate Sample.id2).
  exists (Js.lit "aaaaaaaa"), (Js.lit "bbbb"), (Js.lit "cccc"),
    (Js.lit "dddd"), (Js.lit "eeeeeeeeeeee").
  repeat split; try reflexivity.
  apply List.Forall_forall. intros x Hx. vm_compute in Hx.
  repeat destruct Hx as [<- | Hx]; try contradiction;
    vm_compute; repeat (first [left; reflexivity | right]).
Defined.

(** The attachment is named after an id that passed the gate: whenever the
    endpoint answers 200, the file name in [Content-Disposition] is
    [receipt_], the id of the request and [.csv], and that id is 32 to 36
    hexadecimal digits and hyphens, so the header holds no quote, space or
    line break of the caller's. *)
Theorem export_attachment_name (srv : Server) (request : Request) :
  status (fst (export_csv srv request)) = 200 ->
  exists rid,
    params_id request = Some rid
    /\ Forall Spec.hex_or_hyphen rid
    /\ (32 <= length rid <= 36)%nat
    /\ reply_headers (fst (export_csv srv request))
       = [(Js.lit "Content-Type", Js.lit "text/csv; charset=utf-8");
          (Js.lit "Content-Disposition",
           Js.lit "attachment; filename=receipt_" ++ rid ++ Js.lit ".csv")].
Proof.
  unfold export_csv.
  destruct (authenticate srv request) as [sent | u] eqn:Hu.
  { cbn [fst].
    destruct (authenticate_reply_status _ _ _ Hu) as [E | E]; rewrite E;
      discriminate. }
  destruct (params_id request) as [rid |]; [| cbn; discriminate].
  destruct (id_pattern_test rid) eqn:Ht;
    [| rewrite orb_true_r; cbn; discriminate].
  destruct (negb (Js.truthy rid)); [cbn; discriminate |]. cbn [orb negb].
  destruct (supabase srv) as [st |]; [| cbn; discriminate].
  cbv zeta.
  destruct (error (maybeSingle st _)); [cbn; discriminate |].
  destruct (data (maybeSingle st _)); [| cbn; discriminate].
  intros _. exists rid.
  unfold id_pattern_test in Ht.
  apply andb_true_iff in Ht as [Hlen Hall].
  apply andb_true_iff in Hlen as [Hlo Hhi].
  apply Nat.leb_le in Hlo, Hhi.
  repeat split; try assumption; try reflexivity.
  rewrite forallb_forall in Hall. apply List.Forall_forall.
  intros c Hin. apply isIdChar_hex_or_hyphen, Hall, Hin.
Qed.

Lemma export_attachment_name_witness :
  exists rid,
    params_id (Sample.request_of_U1 Sample.id1) = Some rid
    /\ Forall Spec.hex_or_hyphen rid
    /\ (32 <= length rid <= 36)%nat
    /\ reply_headers (fst (export_csv Sample.server
                                      (Sample.request_of_U1 Sample.id1)))
       = [(Js.lit "Content-Type", Js.lit "text/csv; charset=utf-8");
          (Js.lit "Content-Disposition",
           Js.lit "attachment; filename=receipt_" ++ rid ++ Js.lit ".csv")].
Proof.
  apply (export_attachment_name Sample.server (Sample.request_of_U1 Sample.id1)).
  vm_compute. reflexivity.
Defined.

(** [authenticate] yields a user id exactly when the header begins with
    [Bearer ], the secret is configured and not empty, and the verification
    of the trimmed rest of the header under that secret yields a [sub] that
    is a non-empty string; the user id is that [sub]. *)
Theorem authenticate_success (srv : Server) (request : Request) (u : jsstring) :
  authenticate srv request = inr u
  <-> exists auth secret,
        auth_header request = Some auth
        /\ Js.startsWith (Js.lit "Bearer ") auth = true
        /\ SUPABASE_JWT_SECRET (env srv) = Some secret /\ secret <> []
        /\ jwt_verify (host srv) (Js.trim (skipn 7 auth)) secret
           = Some (VStr u)
        /\ u <> [].
Proof.
  unfold authenticate. split.
  - destruct (auth_header request) as [auth |]; [| discriminate].
    destruct (Js.truthy auth); cbn [negb orb]; [| discriminate].
    destruct (Js.startsWith (Js.lit "Bearer ") auth) eqn:Hb; cbn [negb];
      [| discriminate].
    destruct (SUPABASE_JWT_SECRET (env srv)) as [secret |]; [| discriminate].
    destruct secret as [| c secret]; [discriminate |]. cbn [Js.truthy negb].
    change (length (Js.lit "Bearer ")) with 7%nat.
    destruct (jwt_verify (host srv) _ (c :: secret)) as [[| | b | x | sub] |]
      eqn:Hv; try discriminate.
    destruct sub as [| d sub]; [discriminate |]. cbn [Js.truthy].
    intros E. injection E as <-.
    exists auth, (c :: secret). repeat split; auto; discriminate.
  - intros (auth & secret & -> & Hb & -> & Hs & Hv & Hu).
    rewrite Hb.
    assert (Ha : Js.truthy auth = true) by (destruct auth; [discriminate Hb | reflexivity]).
    rewrite Ha. cbn [negb orb].
    destruct secret as [| c secret]; [contradiction |]. cbn [Js.truthy negb].
    change (length (Js.lit "Bearer ")) with 7%nat. rewrite Hv.
    destruct u as [| d u]; [contradiction | reflexivity].
Qed.

Lemma authenticate_success_witness :
  authenticate Sample.server (Sample2.padded_request Sample.id1)
  = inr (Js.lit "U1").
Proof.
  apply (proj2 (authenticate_success Sample.server
                  (Sample2.padded_request Sample.id1) (Js.lit "U1"))).
  exists (Js.lit "Bearer   token-of-U1  "), (Js.lit "s3cret").
  repeat split; try (vm_compute; reflexivity); discriminate.
Defined.

(** A server without the token secret answers 500 to every request with a
    Bearer header, whatever the token, and only to those: the token is not
    looked at before the configuration is. *)
Theorem authenticate_misconfigured (srv : Server) (request : Request) :
  authenticate srv request
  = inl (send_error 500 "Server missing SUPABASE_JWT_SECRET env variable")
  <-> has_bearer request = true
      /\ (SUPABASE_JWT_SECRET (env srv) = None
          \/ SUPABASE_JWT_SECRET (env srv) = Some []).
Proof.
  unfold authenticate, has_bearer. split.
  - destruct (auth_header request) as [auth |]; [| discriminate].
    destruct (Js.truthy auth); cbn [negb orb]; [| discriminate].
    destruct (Js.startsWith (Js.lit "Bearer ") auth); cbn [negb];
      [| discriminate].
    destruct (SUPABASE_JWT_SECRET (env srv)) as [[| c secret] |]; auto.
    cbn [Js.truthy negb].
    destruct (jwt_verify (host srv) _ (c :: secret)) as [[| | b | x | sub] |];
      try discriminate.
    destruct (Js.truthy sub); discriminate.
  - intros [Hb Hs].
    destruct (auth_header request) as [auth |]; [| discriminate].
    rewrite Hb.
    assert (Ha : Js.truthy auth = true) by (destruct auth; [discriminate Hb | reflexivity]).
    rewrite Ha. cbn [negb orb].
    destruct Hs as [-> | ->]; reflexivity.
Qed.

End Gates.

(** * Reading the export back *)

Section ReadBack.
Import CsvReader.

Lemma read_at_delimiter (st : state) (rest f : jsstring)
    (row : list jsstring) (rows : list (list jsstring)) :
  st <> Quoted -> at_delimiter rest ->
  read st rest f row rows = read Plain rest f row rows.
Proof.
  intros Hst Hd. destruct rest as [| c rest].
  - destruct st; try reflexivity. contradiction.
  - destruct Hd as [-> | ->]; destruct st; try reflexivity; contradiction.
Qed.

Lemma read_plain_run (f : jsstring) :
  forall (st : state) (acc rest : jsstring) row rows,
    needs_quoting f = false -> st = FieldStart \/ st = Plain ->
    read st (f ++ rest) acc row rows
    = read (match f with [] => st | _ => Plain end) rest (rev f ++ acc) row rows.
Proof.
  induction f as [| c f IH]; intros st acc rest row rows Hq Hst;
    [reflexivity |].
  cbn [needs_quoting existsb] in Hq.
  apply orb_false_iff in Hq as [Hc Hq].
  apply orb_false_iff in Hc as [Hc Hlf].
  apply orb_false_iff in Hc as [Hdq Hcomma].
  unfold Js.DQUOTE, Js.COMMA, Js.LF in *.
  destruct Hst as [-> | ->]; cbn [app read]; rewrite Hcomma, Hlf, Hdq;
    rewrite (IH Plain (c :: acc) rest row rows Hq (or_intror eq_refl));
    cbn [rev]; rewrite <- app_assoc; destruct f; reflexivity.
Qed.

Lemma read_quoted_run (f : jsstring) :
  forall (acc rest : jsstring) row rows,
    read Quoted (double_quotes f ++ 34%N :: rest) acc row rows
    = read QuoteSeen rest (rev f ++ acc) row rows.
Proof.
  induction f as [| c f IH]; intros acc rest row rows; [reflexivity |].
  cbn [double_quotes flat_map]. fold (double_quotes f).
  unfold Js.DQUOTE.
  destruct (N.eqb_spec c 34) as [-> | Hc].
  - cbn [app read N.eqb Pos.eqb]. rewrite IH.
    cbn [rev]. rewrite <- app_assoc. reflexivity.
  - cbn [app read]. apply N.eqb_neq in Hc. rewrite Hc, IH.
    cbn [rev]. rewrite <- app_assoc. reflexivity.
Qed.

(** Reading an escaped field up to a separator yields the field. *)
Lemma read_field (f rest : jsstring) (row : list jsstring)
    (rows : list (list jsstring)) :
  at_delimiter rest ->
  read FieldStart (csvEscape (VStr f) ++ rest) [] row rows
  = read Plain rest (rev f) row rows.
Proof.
  intros Hd. unfold csvEscape. cbn [String_].
  destruct (needs_quoting f) eqn:Hq.
  - unfold Js.DQUOTE. cbn [app read N.eqb Pos.eqb].
    rewrite <- app_assoc. cbn [app].
    rewrite read_quoted_run, app_nil_r.
    apply read_at_delimiter; [discriminate | exact Hd].
  - rewrite (read_plain_run f FieldStart [] rest row rows Hq (or_introl eq_refl)).
    rewrite app_nil_r.
    apply read_at_delimiter; [destruct f; discriminate | exact Hd].
Qed.

Lemma line_of_cons (f g : jsstring) (fs : list jsstring) :
  line_of (f :: g :: fs)
  = csvEscape (VStr f) ++ Js.COMMA :: line_of (g :: fs).
Proof. reflexivity. Qed.

(** Reading a line: up to a line feed, and up to the end of the text. *)
Lemma read_line (fs : list jsstring) :
  forall (f : jsstring) (row : list jsstring) (rows : list (list jsstring)),
    (forall rest,
        read FieldStart (line_of (f :: fs) ++ Js.LF :: rest) [] row rows
        = read FieldStart rest [] [] (rev (rev (f :: fs) ++ row) :: rows))
    /\ read FieldStart (line_of (f :: fs)) [] row rows
       = Some (rev (rev (rev (f :: fs) ++ row) :: rows)).
Proof.
  induction fs as [| g fs IH]; intros f row rows.
  - unfold line_of. cbn [List.map Js.join]. split.
    + intros rest.
      rewrite read_field by (right; reflexivity).
      cbn [read]. unfold Js.LF. cbn [N.eqb Pos.eqb].
      rewrite rev_involutive. reflexivity.
    + rewrite <- (app_nil_r (csvEscape (VStr f))).
      rewrite read_field by exact I.
      cbn [read]. rewrite rev_involutive. reflexivity.
  - rewrite line_of_cons.
    destruct (IH g (f :: row) rows) as [IH1 IH2].
    assert (Hrev : rev (f :: g :: fs) ++ row = rev (g :: fs) ++ f :: row).
    { cbn [rev]. rewrite <- !app_assoc. reflexivity. }
    rewrite Hrev. split.
    + intros rest. rewrite <- app_assoc. cbn [app].
      rewrite read_field by (left; reflexivity).
      cbn [read]. unfold Js.COMMA. cbn [N.eqb Pos.eqb].
      rewrite rev_involutive. apply IH1.
    + rewrite read_field by (left; reflexivity).
      cbn [read]. unfold Js.COMMA. cbn [N.eqb Pos.eqb].
      rewrite rev_involutive. exact IH2.
Qed.

Lemma text_of_cons (r r' : list jsstring) (rs : list (list jsstring)) :
  text_of (r :: r' :: rs) = line_of r ++ Js.LF :: text_of (r' :: rs).
Proof. reflexivity. Qed.

(** Reading a text of lines, after the records [done]. *)
Lemma read_text (rs : list (list jsstring)) :
  forall (r : list jsstring) (done : list (list jsstring)),
    r <> [] -> Forall (fun r' => r' <> []) rs ->
    read FieldStart (text_of (r :: rs)) [] [] done
    = Some (rev done ++ r :: rs).
Proof.
  induction rs as [| r' rs IH]; intros r done Hr Hrs;
    (destruct r as [| f fs]; [contradiction |]).
  - unfold text_of. cbn [List.map Js.join].
    rewrite (proj2 (read_line fs f [] done)).
    rewrite app_nil_r, rev_involutive. reflexivity.
  - rewrite text_of_cons.
    rewrite (proj1 (read_line fs f [] done)).
    rewrite app_nil_r, rev_involutive.
    inversion Hrs as [| ? ? Hr' Hrs']; subst.
    rewrite (IH r' ((f :: fs) :: done) Hr' Hrs').
    cbn [rev]. rewrite <- app_assoc. reflexivity.
Qed.

(** A table written the way the export writes one is read back as it was:
    each field through [csvEscape], the fields of a row joined by commas,
    the rows by line feeds; whatever the fields hold. *)
Theorem csv_read_back (rows : list (list jsstring)) :
  rows <> [] -> Forall (fun r => r <> []) rows ->
  read_csv (text_of rows) = Some rows.
Proof.
  intros Hne Hrows. destruct rows as [| r rs]; [contradiction |].
  inversion Hrows as [| ? ? Hr Hrs]; subst.
  unfold read_csv. rewrite (read_text rs r [] Hr Hrs). reflexivity.
Qed.

Lemma csv_read_back_witness :
  read_csv (text_of [[Js.lit "a,b"; [Js.DQUOTE; Js.LF]]; [[]]; [Js.lit "c"]])
  = Some [[Js.lit "a,b"; [Js.DQUOTE; Js.LF]]; [[]]; [Js.lit "c"]].
Proof.
  apply csv_read_back; [discriminate |].
  repeat constructor; discriminate.
Defined.

Lemma csvEscape_cell_text (v : value) :
  csvEscape (VStr (cell_text v)) = csvEscape v.
Proof. destruct v; reflexivity. Qed.

Lemma csvEscape_quantity (v : value) :
  csvEscape (nullish_or v (VStr [])) = csvEscape (VStr (cell_text v)).
Proof. destruct v; reflexivity. Qed.

(** The text of the export is the text of its table. *)
Lemma buildReceiptCsv_text (h : Host) (data : Receipt) :
  buildReceiptCsv h data = text_of (receipt_table h data).
Proof.
  unfold buildReceiptCsv. cbv zeta. rewrite fold_left_push.
  unfold push, text_of, receipt_table. cbn [app List.map].
  rewrite List.map_map.
  f_equal. unfold line_of. cbn [List.map Js.join].
  rewrite !csvEscape_cell_text.
  repeat (apply (f_equal2 (@cons jsstring)); [reflexivity |]).
  apply List.map_ext. intros item.
  unfold item_line.
  rewrite csvEscape_quantity, !csvEscape_cell_text. reflexivity.
Qed.


(** The export of every receipt is well-formed CSV, and reads back as the
    table of the receipt: six rows of a label and a value, a row with one
    empty field, the two header rows and one row of three fields per item,
    with the texts of the cells unchanged, whatever characters the merchant,
    the other values and the item names hold. *)
Theorem export_reads_back (h : Host) (data : Receipt) :
  read_csv (buildReceiptCsv h data) = Some (receipt_table h data).
Proof.
  rewrite buildReceiptCsv_text. unfold read_csv, receipt_table. cbn [app].
  apply read_text; [discriminate |].
  repeat (constructor; [discriminate |]).
  apply List.Forall_forall. intros r Hin.
  apply in_map_iff in Hin as (item & <- & _). discriminate.
Qed.

(** The theorem on a receipt whose cells hold commas, quotes and line
    feeds. *)
Lemma export_reads_back_witness :
  read_csv (buildReceiptCsv Sample.runtime Sample2.awkward)
  = Some [[Js.lit "Merchant";
           Js.lit "Smith, Jones" ++ [Js.LF; Js.DQUOTE] ++ Js.lit "Co"
           ++ [Js.DQUOTE]];
          [Js.lit "Purchase Date"; Js.lit "2024-03-05"];
          [Js.lit "Total"; Js.lit "12.00"];
          [Js.lit "Currency"; []];
          [Js.lit "Category"; Js.lit "true"];
          [Js.lit "Receipt ID"; Sample.id1];
          [[]];
          [Js.lit "Items"];
          [Js.lit "Name"; Js.lit "Quantity"; Js.lit "Price"];
          [[Js.DQUOTE]; Js.lit "3"; []]].
Proof. rewrite export_reads_back. vm_compute. reflexivity. Defined.

End ReadBack.

(** * Cells that are never quoted *)

Section PlainCells.
Import Num.

Lemma needs_quoting_app (a b : jsstring) :
  needs_quoting (a ++ b) = needs_quoting a || needs_quoting b.
Proof. apply existsb_app. Qed.

Lemma needs_quoting_digits (s : jsstring) :
  forallb isDigit s = true -> needs_quoting s = false.
Proof.
  induction s as [| c s IH]; [reflexivity |].
  cbn [forallb needs_quoting existsb]. intros H.
  apply andb_true_iff in H as [Hc Hs].
  fold (needs_quoting s). rewrite (IH Hs), orb_false_r.
  unfold isDigit in Hc. apply andb_true_iff in Hc as [Hlo Hhi].
  apply N.leb_le in Hlo, Hhi.
  unfold Js.DQUOTE, Js.COMMA, Js.LF.
  destruct (N.eqb_spec c 34), (N.eqb_spec c 44), (N.eqb_spec c 10);
    try reflexivity; lia.
Qed.

Lemma needs_quoting_firstn (n : nat) (s : jsstring) :
  needs_quoting s = false -> needs_quoting (firstn n s) = false.
Proof.
  intros H. rewrite <- (firstn_skipn n s), needs_quoting_app in H.
  apply orb_false_iff in H as [H _]. exact H.
Qed.

Lemma needs_quoting_skipn (n : nat) (s : jsstring) :
  needs_quoting s = false -> needs_quoting (skipn n s) = false.
Proof.
  intros H. rewrite <- (firstn_skipn n s), needs_quoting_app in H.
  apply orb_false_iff in H as [_ H]. exact H.
Qed.

Lemma needs_quoting_number_digits (n : Z) : needs_quoting (digits n) = false.
Proof. apply needs_quoting_digits, digits_all. Qed.

Lemma needs_quoting_zeros (k : nat) : needs_quoting (zeros k) = false.
Proof. apply needs_quoting_digits, zeros_all. Qed.

Lemma needs_quoting_pad (w : nat) (n : Z) :
  needs_quoting (Date.pad w n) = false.
Proof. apply needs_quoting_digits, pad_all. Qed.

(** The pieces a rendering is put together from hold no quote, comma or
    line feed. *)
Ltac plain_pieces :=
  repeat rewrite needs_quoting_app;
  repeat first
    [ rewrite needs_quoting_number_digits
    | rewrite needs_quoting_zeros
    | rewrite needs_quoting_pad
    | rewrite needs_quoting_firstn by apply needs_quoting_number_digits
    | rewrite needs_quoting_skipn by apply needs_quoting_number_digits ];
  try reflexivity.

Lemma needs_quoting_toString_pos (m : positive) (e : Z) :
  needs_quoting (toString_pos m e) = false.
Proof.
  unfold toString_pos.
  destruct (ratio_of m e) as [a b].
  destruct (shortest 20 m e (decimal_exponent 700 a b (-324)) 1)
    as [[n k] s0].
  destruct ((k <=? n) && (n <=? 21)); [plain_pieces |].
  destruct ((0 <? n) && (n <=? 21)); [plain_pieces |].
  destruct ((-6 <? n) && (n <=? 0)); [plain_pieces |].
  pose proof (needs_quoting_number_digits s0) as Hds.
  destruct (digits s0) as [| d rest]; [reflexivity |].
  change (d :: rest) with ([d] ++ rest) in Hds.
  rewrite needs_quoting_app in Hds. apply orb_false_iff in Hds as [Hd Hrest].
  destruct (k =? 1), (0 <=? n - 1);
    change (d :: Js.lit "." ++ rest) with ([d] ++ Js.lit "." ++ rest);
    repeat rewrite needs_quoting_app; rewrite ?Hd, ?Hrest;
    rewrite needs_quoting_number_digits; reflexivity.
Qed.

Lemma needs_quoting_toString (x : number) : needs_quoting (toString x) = false.
Proof.
  destruct x as [sg | sg | | sg m e]; cbn [toString];
    try (destruct sg; reflexivity); [reflexivity |].
  rewrite needs_quoting_app, needs_quoting_toString_pos.
  destruct sg; reflexivity.
Qed.

Lemma needs_quoting_toFixed (x : number) (f : nat) :
  needs_quoting (toFixed x f) = false.
Proof.
  destruct x as [sg | sg | | sg m e];
    try apply (needs_quoting_toString (S754_infinity sg));
    try apply (needs_quoting_toString S754_nan).
  - unfold toFixed. destruct (Nat.eqb f 0); [reflexivity |].
    rewrite needs_quoting_app, needs_quoting_zeros. reflexivity.
  - unfold toFixed. destruct (ratio_of m e) as [a b] eqn:Hr.
    destruct (10 ^ 21 * b <=? a); [apply needs_quoting_toString |].
    set (ds := zeros _ ++ digits _).
    assert (Hds : needs_quoting ds = false).
    { unfold ds. rewrite needs_quoting_app, needs_quoting_zeros,
        needs_quoting_number_digits. reflexivity. }
    rewrite needs_quoting_app.
    replace (needs_quoting (if sg then Js.lit "-" else [])) with false
      by (destruct sg; reflexivity).
    destruct (Nat.eqb f 0); [exact Hds |].
    rewrite !needs_quoting_app, needs_quoting_firstn, needs_quoting_skipn
      by exact Hds.
    reflexivity.
Qed.

Lemma needs_quoting_formatNumber (n : value) :
  needs_quoting (formatNumber n) = false.
Proof.
  unfold formatNumber.
  destruct n as [| | b | x | [| c s]]; try reflexivity;
    match goal with
    | |- context [isNaN ?y] => destruct (isNaN y)
    end; try reflexivity; apply needs_quoting_toFixed.
Qed.

Lemma needs_quoting_isoDate (t : Z) : needs_quoting (Date.isoDate t) = false.
Proof.
  unfold Date.isoDate.
  destruct ((0 <=? Date.YearFromTime t) && (Date.YearFromTime t <=? 9999));
    [| destruct (Date.YearFromTime t <? 0)]; plain_pieces.
Qed.

Lemma needs_quoting_formatDate (h : Host) (d : value) :
  needs_quoting (formatDate h d) = false.
Proof.
  destruct (truthy d) eqn:Ht.
  - destruct (Date.new h d) as [t |] eqn:Hn.
    + rewrite (formatDate_valid h d t Ht Hn). apply needs_quoting_isoDate.
    + rewrite formatDate_empty by (right; exact Hn). reflexivity.
  - rewrite formatDate_empty by (left; exact Ht). reflexivity.
Qed.

(** The cells the export formats itself are never quoted: the rendering of
    an amount, of a date, of a number and of a boolean holds no quote,
    comma or line feed, and [csvEscape] leaves it as it is. *)
Theorem formatted_cells_plain (h : Host) (v : value) (x : number) (b : bool) :
  csvEscape (VStr (formatNumber v)) = formatNumber v
  /\ csvEscape (VStr (formatDate h v)) = formatDate h v
  /\ csvEscape (VNum x) = toString x
  /\ csvEscape (VBool b) = (if b then Js.lit "true" else Js.lit "false").
Proof.
  unfold csvEscape. cbn [String_].
  rewrite needs_quoting_formatNumber, needs_quoting_formatDate,
    needs_quoting_toString.
  repeat split. destruct b; reflexivity.
Qed.

End PlainCells.

(** * Further properties of the date cell *)

Section DateCell.
Import Date.

Lemma isoDate_day (t1 t2 : Z) : Day t1 = Day t2 -> isoDate t1 = isoDate t2.
Proof.
  intros H.
  unfold isoDate, DateFromTime, MonthFromTime, DayWithinYear, YearFromTime.
  rewrite H. reflexivity.
Qed.

(** The time of day is dropped: two values that make valid Dates on the
    same UTC day are rendered alike. *)
Theorem formatDate_same_day (h : Host) (d1 d2 : value) (t1 t2 : Z) :
  truthy d1 = true -> truthy d2 = true ->
  Date.new h d1 = Some t1 -> Date.new h d2 = Some t2 ->
  Day t1 = Day t2 ->
  formatDate h d1 = formatDate h d2.
Proof.
  intros T1 T2 N1 N2 Hday.
  rewrite (formatDate_valid h d1 t1 T1 N1), (formatDate_valid h d2 t2 T2 N2).
  apply isoDate_day, Hday.
Qed.

Lemma formatDate_same_day_witness :
  formatDate Sample.runtime (VStr (Js.lit "2024-03-05T00:00:00Z"))
  = formatDate Sample.runtime (VStr (Js.lit "2024-03-05T23:59:59.999Z")).
Proof.
  apply (formatDate_same_day Sample.runtime _ _
           1709596800000 1709683199999);
    vm_compute; reflexivity.
Defined.

Lemma isoDate_nonempty (t : Z) : isoDate t <> [].
Proof.
  unfold isoDate. intros E. apply (f_equal (@length N)) in E.
  rewrite !length_app in E. cbn in E. lia.
Qed.

(** The date cell is empty exactly when the value is falsy or makes an
    invalid Date. *)
Theorem formatDate_empty_iff (h : Host) (d : value) :
  formatDate h d = [] <-> truthy d = false \/ Date.new h d = None.
Proof.
  split; [| apply formatDate_empty].
  intros E.
  destruct (truthy d) eqn:Ht; [| left; reflexivity].
  destruct (Date.new h d) as [t |] eqn:Hn; [| right; reflexivity].
  rewrite (formatDate_valid h d t Ht Hn) in E.
  exfalso. exact (isoDate_nonempty t E).
Qed.

(** The witness of [formatDate_in_range]. *)
Lemma formatDate_in_range_witness :
  formatDate Sample.runtime (VStr (Js.lit "2024-03-05T10:00:00+02:00"))
  = isoDate 1709625600000
  /\ Spec.yyyy_mm_dd
       (formatDate Sample.runtime (VStr (Js.lit "2024-03-05T10:00:00+02:00")))
     = true.
Proof.
  apply (formatDate_in_range Sample.runtime
           (VStr (Js.lit "2024-03-05T10:00:00+02:00")) 1709625600000).
  - reflexivity.
  - vm_compute. reflexivity.
  - vm_compute. split; discriminate.
Defined.

End DateCell.

(** * Further properties of the JSON extractor *)

Section ExtractMore.

Lemma part_of_refl (s : jsstring) : part_of s s.
Proof. exists [], []. rewrite app_nil_r. reflexivity. Qed.

Lemma part_of_trans (a b c : jsstring) :
  part_of a b -> part_of b c -> part_of a c.
Proof.
  intros (p1 & q1 & ->) (p2 & q2 & ->).
  exists (p2 ++ p1), (q1 ++ q2). rewrite <- !app_assoc. reflexivity.
Qed.

Lemma part_of_cons (c : jsstring) (x : N) (s : jsstring) :
  part_of c s -> part_of c (x :: s).
Proof. intros (p & q & ->). exists (x :: p), q. reflexivity. Qed.

Lemma trimStart_suffix (s : jsstring) : exists pre, s = pre ++ Js.trimStart s.
Proof.
  induction s as [| c s (pre & IH)]; [exists []; reflexivity |].
  cbn [Js.trimStart]. destruct (Js.isWhite c).
  - exists (c :: pre). cbn [app]. rewrite <- IH. reflexivity.
  - exists []. reflexivity.
Qed.

Lemma trimEnd_prefix (s : jsstring) : exists post, s = Js.trimEnd s ++ post.
Proof.
  induction s as [| c s (post & IH)]; [exists []; reflexivity |].
  rewrite trimEnd_cons. destruct (Js.trimEnd s) as [| d t].
  - destruct (Js.isWhite c).
    + exists (c :: s). reflexivity.
    + exists s. reflexivity.
  - exists post. cbn [app] in *. rewrite <- IH. reflexivity.
Qed.

Lemma trim_part (s : jsstring) : part_of (Js.trim s) s.
Proof.
  unfold Js.trim.
  destruct (trimStart_suffix s) as (pre & Hpre).
  destruct (trimEnd_prefix (Js.trimStart s)) as (post & Hpost).
  exists pre, post. rewrite <- Hpost. exact Hpre.
Qed.

Lemma until_fence_prefix (s inner : jsstring) :
  Spec.until_fence s = Some inner -> exists post, s = inner ++ post.
Proof.
  revert inner. induction s as [| x s IH]; intros inner.
  - cbn. discriminate.
  - cbn [Spec.until_fence].
    destruct (Js.startsWith Spec.fence (x :: s)).
    + intros E. injection E as <-. exists (x :: s). reflexivity.
    + destruct (Spec.until_fence s) as [t |]; [| discriminate].
      cbn [option_map]. intros E. injection E as <-.
      destruct (IH t eq_refl) as (post & ->). exists post. reflexivity.
Qed.

Lemma strip_suffix (ci : bool) (p s rest : jsstring) :
  Spec.strip ci p s = Some rest -> exists pre, s = pre ++ rest.
Proof.
  revert s. induction p as [| a p IH]; intros s.
  - cbn. intros E. injection E as <-. exists []. reflexivity.
  - destruct s as [| x s]; [discriminate |]. cbn [Spec.strip].
    destruct (if ci then _ else _); [| discriminate].
    intros E. destruct (IH s E) as (pre & ->). exists (x :: pre). reflexivity.
Qed.

Lemma first_span_part (ci : bool) (opening s inner : jsstring) :
  Spec.first_span ci opening s = Some inner -> part_of inner s.
Proof.
  induction s as [| x s IH]; cbn [Spec.first_span]; unfold Spec.span_at.
  - destruct (Spec.strip ci opening []) as [after |] eqn:Hs; [| discriminate].
    destruct (Spec.until_fence after) as [t |] eqn:Hu; [| discriminate].
    intros E. injection E as <-.
    destruct (strip_suffix _ _ _ _ Hs) as (pre & ->).
    destruct (until_fence_prefix _ _ Hu) as (post & ->).
    exists pre, post. reflexivity.
  - destruct (Spec.strip ci opening (x :: s)) as [after |] eqn:Hs.
    + destruct (Spec.until_fence after) as [t |] eqn:Hu.
      * intros E. injection E as <-.
        destruct (strip_suffix _ _ _ _ Hs) as (pre & ->).
        destruct (until_fence_prefix _ _ Hu) as (post & ->).
        exists pre, post. reflexivity.
      * intros E. apply part_of_cons, IH, E.
    + intros E. apply part_of_cons, IH, E.
Qed.

Lemma from_first_suffix (c : N) (s t : jsstring) :
  Spec.from_first c s = Some t ->
  (exists pre, s = pre ++ t) /\ exists t', t = c :: t'.
Proof.
  induction s as [| x s IH]; [discriminate |]. cbn [Spec.from_first].
  destruct (N.eqb_spec x c) as [-> | _].
  - intros E. injection E as <-. split; [exists [] | exists s]; reflexivity.
  - intros E. destruct (IH E) as ((pre & ->) & Ht).
    split; [exists (x :: pre); reflexivity | exact Ht].
Qed.

Lemma upto_last_prefix (c : N) (s t : jsstring) :
  Spec.upto_last c s = Some t ->
  (exists post, s = t ++ post) /\ exists t', t = t' ++ [c].
Proof.
  revert t. induction s as [| x s IH]; intros t; [discriminate |].
  cbn [Spec.upto_last].
  destruct (Spec.upto_last c s) as [u |].
  - intros E. injection E as <-.
    destruct (IH u eq_refl) as ((post & ->) & (u' & ->)).
    split; [exists post | exists (x :: u')]; reflexivity.
  - destruct (N.eqb_spec x c) as [-> | _]; [| discriminate].
    intros E. injection E as <-.
    split; [exists s | exists []]; reflexivity.
Qed.

Lemma trimEnd_snoc (s : jsstring) (c : N) :
  Js.isWhite c = false -> Js.trimEnd (s ++ [c]) = s ++ [c].
Proof.
  intros Hc. induction s as [| x s IH].
  - cbn. rewrite Hc. reflexivity.
  - cbn [app]. rewrite trimEnd_cons, IH.
    destruct (s ++ [c]) eqn:E; [destruct s; discriminate | reflexivity].
Qed.

(** The two ways [extractJson] comes to its result: the trimmed content of
    a fenced span, or the text from the first opening brace to the last
    closing one. *)
Lemma extractJson_cases (s c : jsstring) :
  extractJson s = Some c ->
  (exists i, c = Js.trim i /\ part_of i s)
  \/ (part_of c s /\ exists u, c = Js.LBRACE :: u ++ [Js.RBRACE]).
Proof.
  rewrite extractJson_refines. unfold Spec.extractJson_amended.
  assert (Hrule : forall inner t,
             Spec.nonempty_trimmed inner = Some t ->
             exists i, inner = Some i /\ t = Js.trim i).
  { intros [i |] t; cbn [Spec.nonempty_trimmed]; [| discriminate].
    destruct (Js.truthy (Js.trim i)); [| discriminate].
    intros E. injection E as <-. exists i. split; reflexivity. }
  destruct (Spec.nonempty_trimmed (Spec.json_span s)) as [c1 |] eqn:E1.
  { intros E. injection E as <-.
    destruct (Hrule _ _ E1) as (i & Hi & ->). left. exists i.
    split; [reflexivity | apply (first_span_part _ _ _ _ Hi)]. }
  destruct (Spec.nonempty_trimmed (Spec.any_span s)) as [c2 |] eqn:E2.
  { intros E. injection E as <-.
    destruct (Hrule _ _ E2) as (i & Hi & ->). left. exists i.
    split; [reflexivity | apply (first_span_part _ _ _ _ Hi)]. }
  unfold Spec.brace_span.
  destruct (Spec.from_first Js.LBRACE s) as [[| b rest] |] eqn:Hf;
    try discriminate.
  destruct (Spec.upto_last Js.RBRACE rest) as [t |] eqn:Hu; [| discriminate].
  cbn [option_map]. intros E. injection E as <-.
  destruct (from_first_suffix _ _ _ Hf) as ((pre & ->) & (t' & Hb)).
  injection Hb as -> ->.
  destruct (upto_last_prefix _ _ _ Hu) as ((post & ->) & (u & ->)).
  right. split.
  - exists pre, post. cbn [app]. rewrite <- app_assoc. reflexivity.
  - exists u. reflexivity.
Qed.

Lemma extractJson_part (s c : jsstring) :
  extractJson s = Some c -> part_of c s.
Proof.
  intros H.
  destruct (extractJson_cases s c H) as [(i & -> & Hi) | [Hc _]];
    [| exact Hc].
  apply (part_of_trans _ i); [apply trim_part | exact Hi].
Qed.

(** What [extractJson] returns is a non-empty contiguous part of the text,
    with no white space at either end. *)
Theorem extractJson_result (s c : jsstring) :
  extractJson s = Some c -> c <> [] /\ part_of c s /\ Js.trim c = c.
Proof.
  intros H. split; [| split].
  - pose proof (extractJson_truthy s c H) as T. destruct c; discriminate.
  - exact (extractJson_part s c H).
  - destruct (extractJson_cases s c H) as [(i & -> & _) | (_ & u & ->)].
    + apply trim_idem.
    + unfold Js.trim. cbn [Js.trimStart].
      change (Js.isWhite Js.LBRACE) with false. cbv iota.
      change (Js.LBRACE :: u ++ [Js.RBRACE])
        with ((Js.LBRACE :: u) ++ [Js.RBRACE]).
      apply trimEnd_snoc. reflexivity.
Qed.

Lemma extractJson_result_witness :
  Js.lit "{x}" <> [] /\ part_of (Js.lit "{x}") (Js.lit "so: ``` {x} ``` ok")
  /\ Js.trim (Js.lit "{x}") = Js.lit "{x}".
Proof.
  apply (extractJson_result (Js.lit "so: ``` {x} ``` ok") (Js.lit "{x}")).
  vm_compute. reflexivity.
Defined.

(** A text without a backtick holds no fenced span. *)
Lemma first_span_none (ci : bool) (opening s : jsstring) :
  Forall (fun c => c <> 96%N) s ->
  Spec.first_span ci (96%N :: opening) s = None.
Proof.
  induction 1 as [| x s Hx _ IH]; [reflexivity |].
  cbn [Spec.first_span]. unfold Spec.span_at. cbn [Spec.strip].
  assert (Hne : (if ci then Spec.lower x =? Spec.lower 96 else x =? 96)%N = false).
  { destruct ci; [| apply N.eqb_neq, Hx].
    unfold Spec.lower. cbn [andb].
    case_N_tests; try reflexivity; lia. }
  rewrite Hne. exact IH.
Qed.

Lemma from_first_app (c : N) (pre t : jsstring) :
  Forall (fun x => x <> c) pre ->
  Spec.from_first c (pre ++ c :: t) = Some (c :: t).
Proof.
  induction 1 as [| x pre Hx _ IH]; cbn [app Spec.from_first].
  - rewrite N.eqb_refl. reflexivity.
  - apply N.eqb_neq in Hx. rewrite Hx. exact IH.
Qed.

Lemma upto_last_none (c : N) (post : jsstring) :
  Forall (fun x => x <> c) post -> Spec.upto_last c post = None.
Proof.
  induction 1 as [| x post Hx _ IH]; [reflexivity |].
  cbn [Spec.upto_last]. rewrite IH. apply N.eqb_neq in Hx. rewrite Hx.
  reflexivity.
Qed.

Lemma upto_last_app (c : N) (mid post : jsstring) :
  Forall (fun x => x <> c) post ->
  Spec.upto_last c (mid ++ c :: post) = Some (mid ++ [c]).
Proof.
  intros Hpost. induction mid as [| x mid IH]; cbn [app Spec.upto_last].
  - rewrite (upto_last_none c post Hpost), N.eqb_refl. reflexivity.
  - rewrite IH. reflexivity.
Qed.

(** A JSON object inside prose, with no backtick anywhere: the extractor
    returns the text from the first opening brace to the last closing
    brace, whole. *)
Theorem extractJson_braces_in_prose (pre mid post : jsstring) :
  Forall (fun c => c <> 96%N) (pre ++ mid ++ post) ->
  Forall (fun c => c <> Js.LBRACE) pre ->
  Forall (fun c => c <> Js.RBRACE) post ->
  extractJson (pre ++ [Js.LBRACE] ++ mid ++ [Js.RBRACE] ++ post)
  = Some ([Js.LBRACE] ++ mid ++ [Js.RBRACE]).
Proof.
  intros Hticks Hpre Hpost.
  rewrite extractJson_refines. unfold Spec.extractJson_amended.
  assert (Hall : Forall (fun c => c <> 96%N)
                   (pre ++ [Js.LBRACE] ++ mid ++ [Js.RBRACE] ++ post)).
  { rewrite !Forall_app in *. destruct Hticks as (H1 & H2 & H3).
    repeat split; try assumption; repeat constructor; discriminate. }
  unfold Spec.json_span, Spec.any_span.
  change (Js.lit "```json") with (96%N :: Js.lit "``json").
  change Spec.fence with (96%N :: Js.lit "``").
  rewrite !(first_span_none _ _ _ Hall). cbn [Spec.nonempty_trimmed].
  unfold Spec.brace_span. cbn [app].
  rewrite (from_first_app _ _ _ Hpre).
  rewrite (upto_last_app _ _ _ Hpost). reflexivity.
Qed.

Lemma extractJson_braces_in_prose_witness :
  extractJson (Js.lit "Here: " ++ [Js.LBRACE] ++ Js.lit "a:{b:1}"
               ++ [Js.RBRACE] ++ Js.lit " bye")
  = Some ([Js.LBRACE] ++ Js.lit "a:{b:1}" ++ [Js.RBRACE]).
Proof.
  apply (extractJson_braces_in_prose (Js.lit "Here: ") (Js.lit "a:{b:1}")
           (Js.lit " bye"));
    repeat constructor; discriminate.
Defined.

Lemma first_span_skip (ci : bool) (opening pre t : jsstring) :
  Forall (fun c => c <> 96%N) pre ->
  Spec.first_span ci (96%N :: opening) (pre ++ t)
  = Spec.first_span ci (96%N :: opening) t.
Proof.
  induction 1 as [| x pre Hx _ IH]; [reflexivity |].
  cbn [app Spec.first_span]. unfold Spec.span_at. cbn [Spec.strip].
  assert (Hne : (if ci then Spec.lower x =? Spec.lower 96 else x =? 96)%N = false).
  { destruct ci; [| apply N.eqb_neq, Hx].
    unfold Spec.lower. cbn [andb].
    case_N_tests; try reflexivity; lia. }
  rewrite Hne. exact IH.
Qed.

Lemma strip_same_letters (a : jsstring) :
  forall b rest : jsstring,
    List.map Spec.lower b = List.map Spec.lower a ->
    Spec.strip true a (b ++ rest) = Some rest.
Proof.
  induction a as [| x a IH]; intros [| y b] rest H; try discriminate;
    [reflexivity |].
  cbn [List.map] in H. injection H as Hy Hb.
  cbn [app Spec.strip]. rewrite Hy, N.eqb_refl. apply IH, Hb.
Qed.

Lemma until_fence_app (payload post : jsstring) :
  Forall (fun c => c <> 96%N) payload ->
  Spec.until_fence (payload ++ Spec.fence ++ post) = Some payload.
Proof.
  induction 1 as [| x payload Hx _ IH]; [reflexivity |].
  cbn [app]. rewrite until_fence_cons, IH; [reflexivity |].
  change Spec.fence with [96%N; 96%N; 96%N]. cbn [Js.startsWith].
  destruct (N.eqb_spec 96 x) as [E | _]; [congruence | reflexivity].
Qed.

Lemma first_span_here (ci : bool) (opening s inner : jsstring) :
  Spec.span_at ci opening s = Some inner ->
  Spec.first_span ci opening s = Some inner.
Proof. intros H. destruct s; cbn [Spec.first_span]; rewrite H; reflexivity. Qed.

(** A block labeled json, in any case of the letters, after prose without
    backticks: when the payload holds no backtick and more than white
    space, the extractor returns the payload, trimmed, whatever follows the
    closing fence. *)
Theorem extractJson_fenced_json (pre label payload post : jsstring) :
  Forall (fun c => c <> 96%N) pre ->
  List.map Spec.lower label = Js.lit "json" ->
  Forall (fun c => c <> 96%N) payload ->
  Js.trim payload <> [] ->
  extractJson (pre ++ Spec.fence ++ label ++ payload ++ Spec.fence ++ post)
  = Some (Js.trim payload).
Proof.
  intros Hpre Hlabel Hpayload Hne.
  rewrite extractJson_refines. unfold Spec.extractJson_amended, Spec.json_span.
  change (Js.lit "```json") with (96%N :: Js.lit "``json").
  rewrite (first_span_skip true _ pre _ Hpre).
  rewrite (first_span_here true _ _ payload).
  - cbn [Spec.nonempty_trimmed].
    destruct (Js.trim payload); [contradiction | reflexivity].
  - unfold Spec.span_at.
    replace (Spec.fence ++ label ++ payload ++ Spec.fence ++ post)
      with ((Spec.fence ++ label) ++ payload ++ Spec.fence ++ post)
      by (rewrite <- app_assoc; reflexivity).
    rewrite strip_same_letters.
    + apply until_fence_app, Hpayload.
    + rewrite List.map_app, Hlabel. reflexivity.
Qed.

Lemma extractJson_fenced_json_witness :
  extractJson (Js.lit "Sure! " ++ Spec.fence ++ Js.lit "JSON"
               ++ ([Js.LF] ++ Js.lit "{x}" ++ [Js.LF])
               ++ Spec.fence ++ Js.lit " Anything else?")
  = Some (Js.lit "{x}").
Proof.
  apply (extractJson_fenced_json (Js.lit "Sure! ") (Js.lit "JSON")
           ([Js.LF] ++ Js.lit "{x}" ++ [Js.LF]) (Js.lit " Anything else?")).
  - repeat constructor; discriminate.
  - reflexivity.
  - repeat constructor; discriminate.
  - discriminate.
Defined.

End ExtractMore.

(** * Further properties of the analysis endpoint *)

Section AnalyzeMore.

(** A reply the handler sends itself has one of four statuses; the handler
    sends none exactly when [req.file()] or the read of the file stream
    throws, and then that very error leaves the handler uncaught, for the
    framework to answer. *)
Theorem analyze_statuses (srv : Server) (incoming : JsError + option Upload) :
  (forall r, analyze_receipt srv incoming = Sent r ->
             In (status r) [200; 400; 500; 502])
  /\ (forall e, analyze_receipt srv incoming = Thrown e
                <-> incoming = inl e
                    \/ exists data, incoming = inr (Some data)
                                    /\ file_error data = Some e).
Proof.
  unfold analyze_receipt. split.
  - intros r.
    destruct incoming as [e | [data |]];
      [discriminate | | intros H; injection H as <-; cbn; auto].
    destruct (file_error data) as [e |]; [discriminate |]. cbv zeta.
    destruct (or_else _ _) as [[| k key] |]; cbn [Js.truthy negb];
      [intros H; injection H as <-; cbn; auto 10 |
      | intros H; injection H as <-; cbn; auto 10].
    destruct (generate_content _ _ _ _) as [msg | answer];
      [intros H; injection H as <-; cbn; auto 10 |].
    destruct (extractJson _) as [c |];
      [| intros H; injection H as <-; cbn; auto 10].
    destruct (negb (Js.truthy c));
      [intros H; injection H as <-; cbn; auto 10 |].
    destruct (Json.parse c); intros H; injection H as <-; cbn; auto 10.
  - intros e. split.
    + destruct incoming as [e' | [data |]]; [| | discriminate].
      * intros H. injection H as <-. left. reflexivity.
      * destruct (file_error data) as [e' |] eqn:He.
        { intros H. injection H as <-. right. exists data.
          split; [reflexivity | exact He]. }
        cbv zeta.
        destruct (or_else _ _) as [[| k key] |]; cbn [Js.truthy negb];
          try discriminate.
        destruct (generate_content _ _ _ _) as [msg | answer];
          [discriminate |].
        destruct (extractJson _) as [c |]; [| discriminate].
        destruct (negb (Js.truthy c)); [discriminate |].
        destruct (Json.parse c); discriminate.
    + intros [-> | (data & -> & He)]; [reflexivity |].
      rewrite He. reflexivity.
Qed.

(** The theorem at work: no file, a request that is not multipart, and a
    stream that breaks. *)
Lemma analyze_statuses_witness :
  In 400 [200; 400; 500; 502]
  /\ analyze_receipt Sample.server (inl Sample2.not_multipart)
     = Thrown Sample2.not_multipart
  /\ analyze_receipt Sample.server (inr (Some Sample2.broken_upload))
     = Thrown {| error_message := Js.lit "aborted"; error_statusCode := None |}.
Proof.
  split; [| split].
  - apply (proj1 (analyze_statuses Sample.server (inr None))
             (send_error 400 "No file provided. Send multipart form with an image file.")).
    reflexivity.
  - apply (proj2 (analyze_statuses Sample.server (inl Sample2.not_multipart))).
    left. reflexivity.
  - apply (proj2 (analyze_statuses Sample.server
                    (inr (Some Sample2.broken_upload)))).
    right. exists Sample2.broken_upload. split; reflexivity.
Defined.

(** The handler sends a 200 exactly when the file part was read, a
    non-empty API key is configured, the model answered, [extractJson]
    found a candidate in the answer and [JSON.parse] accepted it; the
    candidate is a part of the text of the model, and what the handler
    hands to [reply.send] is what [JSON.parse] made of it. *)
Theorem analyze_200 (srv : Server) (incoming : JsError + option Upload)
    (r : Response) :
  analyze_receipt srv incoming = Sent r /\ status r = 200
  <-> exists data key answer c parsed,
        incoming = inr (Some data)
        /\ file_error data = None
        /\ or_else (GEMINI_API_KEY (env srv)) (GOOGLE_API_KEY (env srv))
           = Some key
        /\ key <> []
        /\ generate_content (host srv) key (media_type data)
             (concat (file data)) = inr answer
        /\ extractJson (match answer with Some t => t | None => [] end)
           = Some c
        /\ part_of c (match answer with Some t => t | None => [] end)
        /\ Json.parse c = Some parsed
        /\ r = {| status := 200; reply_headers := []; body := BJson parsed |}.
Proof.
  unfold analyze_receipt. split.
  - intros [H Hs].
    destruct incoming as [e | [data |]]; [discriminate H | |];
      [| injection H as <-; discriminate Hs].
    destruct (file_error data) as [e |] eqn:Hf; [discriminate H |].
    cbv zeta in H.
    destruct (or_else _ _) as [key |] eqn:Hk;
      [| injection H as <-; discriminate Hs].
    destruct key as [| k key]; [injection H as <-; discriminate Hs |].
    cbn [Js.truthy negb] in H.
    destruct (generate_content _ _ _ _) as [msg | answer] eqn:Hg;
      [injection H as <-; discriminate Hs |].
    destruct (extractJson _) as [c |] eqn:He;
      [| injection H as <-; discriminate Hs].
    destruct (negb (Js.truthy c)); [injection H as <-; discriminate Hs |].
    destruct (Json.parse c) as [parsed |] eqn:Hp;
      [| injection H as <-; discriminate Hs].
    injection H as <-.
    exists data, (k :: key), answer, c, parsed.
    repeat split; try assumption; try reflexivity; try discriminate.
    apply (extractJson_part _ _ He).
  - intros (data & key & answer & c & parsed & -> & Hf & Hk & Hne & Hg & He
            & _ & Hp & ->).
    rewrite Hf, Hk. cbv zeta.
    destruct key as [| k key]; [contradiction |]. cbn [Js.truthy negb].
    rewrite Hg, He, (extractJson_truthy _ _ He), Hp.
    split; reflexivity.
Qed.

Lemma analyze_200_witness :
  analyze_receipt Sample.server (inr (Some (Sample.upload (Js.lit "{} "))))
  = Sent {| status := 200; reply_headers := []; body := BJson (JObj []) |}
  /\ status {| status := 200; reply_headers := []; body := BJson (JObj []) |}
     = 200.
Proof.
  apply (proj2 (analyze_200 Sample.server
                  (inr (Some (Sample.upload (Js.lit "{} ")))) _)).
  exists (Sample.upload (Js.lit "{} ")), (Js.lit "key"),
    (Some (Js.lit "{} ")), (Js.lit "{}"), (JObj []).
  repeat split; try (vm_compute; reflexivity); try discriminate.
  exists [], (Js.lit " "). reflexivity.
Defined.

End AnalyzeMore.
